(** * The CloudStackCluster controller

    A shallow embedding of [controllers/cloudstackcluster_controller.go]:
    the reconciliation stages of the CloudStackCluster runner
    ([SetFailureDomainsStatusMap], [VerifyFailureDomainCRDs], [SetReady],
    [Reconcile], [ReconcileDelete]) and the two event predicates installed
    by [SetupWithManager].

    Conventions.
    - A Go [string] is a [string] (a sequence of bytes); an [int] or [int64]
      is a [Z].
    - A Go slice is an [option (list A)]: [None] is the nil slice, [Some []]
      the empty one.  [len] and [range] do not tell them apart,
      [reflect.DeepEqual] does.  A Go pointer is an [option] as well.
    - A Go map is an [option (gmap string V)]: [None] is the nil map.
    - A reconciler method has type [Method]: it takes the runner and
      returns its outcome together with the updated runner. *)

From Stdlib Require Import ZArith String Ascii Bool List DecimalString.
From stdpp Require Import base option list gmap strings fin_maps.

Open Scope string_scope.
Open Scope list_scope.
Open Scope Z_scope.

(** ** Go values *)

Definition slice (A : Type) : Type := option (list A).

(** The elements a [range] loop visits. *)
Definition elems {A} (s : slice A) : list A := default [] s.

(** Go's built-in [len] on a slice. *)
Definition len {A} (s : slice A) : Z := Z.of_nat (length (elems s)).

Definition gomap (V : Type) : Type := option (gmap string V).

(** [m[k] = v].  Go panics when [m] is nil; the only assignment of the
    controller follows the allocation of the map (line 121), so that case
    is never reached, and here a nil map stays nil. *)
Definition map_assign {V} (k : string) (v : V) (m : gomap V) : gomap V :=
  (λ g : gmap string V, <[k := v]> g) <$> m.

(** [fmt.Sprintf("%d", n)]. *)
Definition sprint_d (n : Z) : string := NilZero.string_of_int (Z.to_int n).

Module strings.

(** [strings.HasSuffix]:
    [len(s) >= len(suffix) && s[len(s)-len(suffix):] == suffix]. *)
Definition HasSuffix (s suffix : string) : bool :=
  (String.length suffix <=? String.length s)%nat
  && String.eqb
       (substring (String.length s - String.length suffix)
                  (String.length suffix) s)
       suffix.

End strings.

(** ** [reflect.DeepEqual]

    One instance per kind of value the compared structs hold.  Pointers are
    followed, a nil slice or map differs from an empty one, slices are
    compared element by element and maps key by key. *)

Class DeepEqual (A : Type) : Type := deep_equal : A → A → bool.

#[export] Instance DeepEqual_string : DeepEqual string := String.eqb.
#[export] Instance DeepEqual_Z : DeepEqual Z := Z.eqb.
#[export] Instance DeepEqual_bool : DeepEqual bool := Bool.eqb.
#[export] Instance DeepEqual_ascii : DeepEqual ascii := Ascii.eqb.

Fixpoint deep_equal_list {A} `{DeepEqual A} (l1 l2 : list A) : bool :=
  match l1, l2 with
  | [], [] => true
  | x :: l1', y :: l2' => deep_equal x y && deep_equal_list l1' l2'
  | _, _ => false
  end.

#[export] Instance DeepEqual_list {A} `{DeepEqual A} : DeepEqual (list A) :=
  deep_equal_list.

(** Pointers, and with [DeepEqual_list] slices: both nil, or both non-nil
    with deeply equal contents. *)
#[export] Instance DeepEqual_option {A} `{DeepEqual A} : DeepEqual (option A) :=
  λ p q,
    match p, q with
    | None, None => true
    | Some x, Some y => deep_equal x y
    | _, _ => false
    end.

(** Maps (below the nil check of [DeepEqual_option]): the same number of
    keys, and every key of the first is a key of the second with a deeply
    equal value. *)
#[export] Instance DeepEqual_gmap {V} `{DeepEqual V} : DeepEqual (gmap string V) :=
  λ m1 m2,
    (size m1 =? size m2)%nat
    && forallb
         (λ kv : string * V,
            match m2 !! kv.1 with
            | Some v2 => deep_equal kv.2 v2
            | None => false
            end)
         (map_to_list m1).

(** ** API types

    The structs the controller reads and writes.  Their declarations live in
    the API packages ([k8s.io/apimachinery], [k8s.io/api],
    [sigs.k8s.io/cluster-api] and this repository's [api/v1beta2]), outside
    the controller's file; the records below list their fields under the Go
    names.  A record whose field names occur in another struct sits in a
    module of its own, its type called [t]. *)

Module metav1.

(** [metav1.Time], an instant. *)
Definition Time : Type := Z.

Record TypeMeta : Type := mkTypeMeta {
  Kind : string;
  APIVersion : string
}.

Module OwnerReference.
Record t : Type := mk {
  APIVersion : string;
  Kind : string;
  Name : string;
  UID : string;
  Controller : option bool;
  BlockOwnerDeletion : option bool
}.
End OwnerReference.

Module ManagedFieldsEntry.
Record t : Type := mk {
  Manager : string;
  Operation : string;
  APIVersion : string;
  Time : option metav1.Time;
  FieldsType : string;
  FieldsV1 : option (slice ascii);
  Subresource : string
}.
End ManagedFieldsEntry.

Record ObjectMeta : Type := mkObjectMeta {
  Name : string;
  GenerateName : string;
  Namespace : string;
  SelfLink : string;
  UID : string;
  ResourceVersion : string;
  Generation : Z;
  CreationTimestamp : Time;
  DeletionTimestamp : option Time;
  DeletionGracePeriodSeconds : option Z;
  Labels : gomap string;
  Annotations : gomap string;
  OwnerReferences : slice OwnerReference.t;
  Finalizers : slice string;
  ManagedFields : slice ManagedFieldsEntry.t
}.

(** The zero value of [ObjectMeta]. *)
Definition zeroObjectMeta : ObjectMeta :=
  mkObjectMeta "" "" "" "" "" "" 0 0 None None None None None None None.

Definition zeroTypeMeta : TypeMeta := mkTypeMeta "" "".

(** Assignments to single fields of an [ObjectMeta]. *)
Definition setResourceVersion (v : string) (m : ObjectMeta) : ObjectMeta :=
  mkObjectMeta (Name m) (GenerateName m) (Namespace m) (SelfLink m) (UID m)
    v (Generation m) (CreationTimestamp m) (DeletionTimestamp m)
    (DeletionGracePeriodSeconds m) (Labels m) (Annotations m)
    (OwnerReferences m) (Finalizers m) (ManagedFields m).

Definition setFinalizers (v : slice string) (m : ObjectMeta) : ObjectMeta :=
  mkObjectMeta (Name m) (GenerateName m) (Namespace m) (SelfLink m) (UID m)
    (ResourceVersion m) (Generation m) (CreationTimestamp m)
    (DeletionTimestamp m) (DeletionGracePeriodSeconds m) (Labels m)
    (Annotations m) (OwnerReferences m) v (ManagedFields m).

Definition setManagedFields (v : slice ManagedFieldsEntry.t) (m : ObjectMeta)
  : ObjectMeta :=
  mkObjectMeta (Name m) (GenerateName m) (Namespace m) (SelfLink m) (UID m)
    (ResourceVersion m) (Generation m) (CreationTimestamp m)
    (DeletionTimestamp m) (DeletionGracePeriodSeconds m) (Labels m)
    (Annotations m) (OwnerReferences m) (Finalizers m) v.

End metav1.

Module corev1.

Record SecretReference : Type := mkSecretReference {
  Name : string;
  Namespace : string
}.

End corev1.

Module clusterv1.

Record APIEndpoint : Type := mkAPIEndpoint {
  Host : string;
  Port : Z
}.

(** One entry of a cluster's [Status.FailureDomains]. *)
Record FailureDomainSpec : Type := mkFailureDomainSpec {
  ControlPlane : bool;
  Attributes : gomap string
}.

(** [clusterv1.FailureDomains], a [map[string]FailureDomainSpec]. *)
Definition FailureDomains : Type := gomap FailureDomainSpec.

Record ClusterSpec : Type := mkClusterSpec {
  Paused : bool
}.

(** The CAPI cluster that owns a CloudStackCluster; the controller reads
    its name and its [Spec.Paused]. *)
Module Cluster.
Record t : Type := mk {
  ObjectMeta : metav1.ObjectMeta;
  Spec : ClusterSpec
}.
End Cluster.

End clusterv1.

Module infrav1.

Record Network : Type := mkNetwork {
  ID : string;
  Type_ : string;
  Name : string
}.

Module CloudStackZoneSpec.
Record t : Type := mk {
  Name : string;
  ID : string;
  Network : infrav1.Network
}.
End CloudStackZoneSpec.

(** Modelled from the spec: [CloudStackFailureDomainSpec], declared in
    [api/v1beta2], which is missing; section 3: "declared configuration for
    one dependent resource; has a Name".  The fields next to [Name] are that
    configuration; the controller reads and writes [Name] only. *)
Module CloudStackFailureDomainSpec.
Record t : Type := mk {
  Name : string;
  Zone : CloudStackZoneSpec.t;
  Account : string;
  Domain : string;
  ACSEndpoint : corev1.SecretReference
}.
Definition setName (n : string) (s : t) : t :=
  mk n (Zone s) (Account s) (Domain s) (ACSEndpoint s).
End CloudStackFailureDomainSpec.

Record CloudStackFailureDomainStatus : Type := mkCloudStackFailureDomainStatus {
  fdReady : bool
}.

(** Modelled from the spec: [CloudStackFailureDomain], declared in
    [api/v1beta2], which is missing; section 3: "a separately stored
    object, owned conceptually by exactly one Subject, carrying its own
    readiness flag". *)
Module CloudStackFailureDomain.
Record t : Type := mk {
  TypeMeta : metav1.TypeMeta;
  ObjectMeta : metav1.ObjectMeta;
  Spec : CloudStackFailureDomainSpec.t;
  Status : CloudStackFailureDomainStatus
}.
End CloudStackFailureDomain.

(** Only [len] and [range] are applied to [Items], so a plain list. *)
Record CloudStackFailureDomainList : Type := mkCloudStackFailureDomainList {
  Items : list CloudStackFailureDomain.t
}.

(** Modelled from the spec: [CloudStackClusterSpec], declared in
    [api/v1beta2], which is missing; section 3: the desired state,
    "including a list of FailureDomainSpec entries". *)
Record CloudStackClusterSpec : Type := mkCloudStackClusterSpec {
  FailureDomains : slice CloudStackFailureDomainSpec.t;
  ControlPlaneEndpoint : clusterv1.APIEndpoint
}.

(** Modelled from the spec: [CloudStackClusterStatus], declared in
    [api/v1beta2], which is missing; section 3: "readiness flag, map of
    realized failure-domain names to descriptor". *)
Module CloudStackClusterStatus.
Record t : Type := mk {
  FailureDomains : clusterv1.FailureDomains;
  Ready : bool
}.
(** [CloudStackClusterStatus{}]. *)
Definition zero : t := mk None false.
End CloudStackClusterStatus.

(** Modelled from the spec: [CloudStackCluster], the reconciliation
    subject, declared in [api/v1beta2], which is missing; section 3:
    identity, spec, status, finalizers and version counters, the last three
    in its [ObjectMeta]. *)
Module CloudStackCluster.
Record t : Type := mk {
  TypeMeta : metav1.TypeMeta;
  ObjectMeta : metav1.ObjectMeta;
  Spec : CloudStackClusterSpec;
  Status : CloudStackClusterStatus.t
}.
End CloudStackCluster.

(** Modelled from the spec: [ClusterFinalizer], a constant of
    [api/v1beta2], which is missing; section 3: "an opaque token on the
    Subject".  No property below depends on its value. *)
Definition ClusterFinalizer : string :=
  "cloudstackcluster.infrastructure.cluster.x-k8s.io".

End infrav1.

(** ** [reflect.DeepEqual] on the API structs: field by field *)

#[export] Instance DeepEqual_TypeMeta : DeepEqual metav1.TypeMeta :=
  λ a b,
    deep_equal (metav1.Kind a) (metav1.Kind b)
    && deep_equal (metav1.APIVersion a) (metav1.APIVersion b).

#[export] Instance DeepEqual_OwnerReference : DeepEqual metav1.OwnerReference.t :=
  λ a b,
    let f := metav1.OwnerReference.APIVersion in
    let g := metav1.OwnerReference.Kind in
    let h := metav1.OwnerReference.Name in
    let i := metav1.OwnerReference.UID in
    let j := metav1.OwnerReference.Controller in
    let k := metav1.OwnerReference.BlockOwnerDeletion in
    deep_equal (f a) (f b) && deep_equal (g a) (g b)
    && deep_equal (h a) (h b) && deep_equal (i a) (i b)
    && deep_equal (j a) (j b) && deep_equal (k a) (k b).

#[export] Instance DeepEqual_ManagedFieldsEntry
  : DeepEqual metav1.ManagedFieldsEntry.t :=
  λ a b,
    let f := metav1.ManagedFieldsEntry.Manager in
    let g := metav1.ManagedFieldsEntry.Operation in
    let h := metav1.ManagedFieldsEntry.APIVersion in
    let i := metav1.ManagedFieldsEntry.Time in
    let j := metav1.ManagedFieldsEntry.FieldsType in
    let k := metav1.ManagedFieldsEntry.FieldsV1 in
    let l := metav1.ManagedFieldsEntry.Subresource in
    deep_equal (f a) (f b) && deep_equal (g a) (g b)
    && deep_equal (h a) (h b) && deep_equal (i a) (i b)
    && deep_equal (j a) (j b) && deep_equal (k a) (k b)
    && deep_equal (l a) (l b).

#[export] Instance DeepEqual_ObjectMeta : DeepEqual metav1.ObjectMeta :=
  λ a b,
    deep_equal (metav1.Name a) (metav1.Name b)
    && deep_equal (metav1.GenerateName a) (metav1.GenerateName b)
    && deep_equal (metav1.Namespace a) (metav1.Namespace b)
    && deep_equal (metav1.SelfLink a) (metav1.SelfLink b)
    && deep_equal (metav1.UID a) (metav1.UID b)
    && deep_equal (metav1.ResourceVersion a) (metav1.ResourceVersion b)
    && deep_equal (metav1.Generation a) (metav1.Generation b)
    && deep_equal (metav1.CreationTimestamp a) (metav1.CreationTimestamp b)
    && deep_equal (metav1.DeletionTimestamp a) (metav1.DeletionTimestamp b)
    && deep_equal (metav1.DeletionGracePeriodSeconds a)
                  (metav1.DeletionGracePeriodSeconds b)
    && deep_equal (metav1.Labels a) (metav1.Labels b)
    && deep_equal (metav1.Annotations a) (metav1.Annotations b)
    && deep_equal (metav1.OwnerReferences a) (metav1.OwnerReferences b)
    && deep_equal (metav1.Finalizers a) (metav1.Finalizers b)
    && deep_equal (metav1.ManagedFields a) (metav1.ManagedFields b).

#[export] Instance DeepEqual_SecretReference : DeepEqual corev1.SecretReference :=
  λ a b,
    deep_equal (corev1.Name a) (corev1.Name b)
    && deep_equal (corev1.Namespace a) (corev1.Namespace b).

#[export] Instance DeepEqual_APIEndpoint : DeepEqual clusterv1.APIEndpoint :=
  λ a b,
    deep_equal (clusterv1.Host a) (clusterv1.Host b)
    && deep_equal (clusterv1.Port a) (clusterv1.Port b).

#[export] Instance DeepEqual_FailureDomainSpec
  : DeepEqual clusterv1.FailureDomainSpec :=
  λ a b,
    deep_equal (clusterv1.ControlPlane a) (clusterv1.ControlPlane b)
    && deep_equal (clusterv1.Attributes a) (clusterv1.Attributes b).

#[export] Instance DeepEqual_Network : DeepEqual infrav1.Network :=
  λ a b,
    deep_equal (infrav1.ID a) (infrav1.ID b)
    && deep_equal (infrav1.Type_ a) (infrav1.Type_ b)
    && deep_equal (infrav1.Name a) (infrav1.Name b).

#[export] Instance DeepEqual_CloudStackZoneSpec
  : DeepEqual infrav1.CloudStackZoneSpec.t :=
  λ a b,
    let f := infrav1.CloudStackZoneSpec.Name in
    let g := infrav1.CloudStackZoneSpec.ID in
    let h := infrav1.CloudStackZoneSpec.Network in
    deep_equal (f a) (f b) && deep_equal (g a) (g b) && deep_equal (h a) (h b).

#[export] Instance DeepEqual_CloudStackFailureDomainSpec
  : DeepEqual infrav1.CloudStackFailureDomainSpec.t :=
  λ a b,
    let f := infrav1.CloudStackFailureDomainSpec.Name in
    let g := infrav1.CloudStackFailureDomainSpec.Zone in
    let h := infrav1.CloudStackFailureDomainSpec.Account in
    let i := infrav1.CloudStackFailureDomainSpec.Domain in
    let j := infrav1.CloudStackFailureDomainSpec.ACSEndpoint in
    deep_equal (f a) (f b) && deep_equal (g a) (g b)
    && deep_equal (h a) (h b) && deep_equal (i a) (i b)
    && deep_equal (j a) (j b).

#[export] Instance DeepEqual_CloudStackClusterSpec
  : DeepEqual infrav1.CloudStackClusterSpec :=
  λ a b,
    deep_equal (infrav1.FailureDomains a) (infrav1.FailureDomains b)
    && deep_equal (infrav1.ControlPlaneEndpoint a)
                  (infrav1.ControlPlaneEndpoint b).

#[export] Instance DeepEqual_CloudStackClusterStatus
  : DeepEqual infrav1.CloudStackClusterStatus.t :=
  λ a b,
    let f := infrav1.CloudStackClusterStatus.FailureDomains in
    let g := infrav1.CloudStackClusterStatus.Ready in
    deep_equal (f a) (f b) && deep_equal (g a) (g b).

#[export] Instance DeepEqual_CloudStackCluster
  : DeepEqual infrav1.CloudStackCluster.t :=
  λ a b,
    let f := infrav1.CloudStackCluster.TypeMeta in
    let g := infrav1.CloudStackCluster.ObjectMeta in
    let h := infrav1.CloudStackCluster.Spec in
    let i := infrav1.CloudStackCluster.Status in
    deep_equal (f a) (f b) && deep_equal (g a) (g b)
    && deep_equal (h a) (h b) && deep_equal (i a) (i b).

(** ** [controllerutil]: finalizers of an object *)

Module controllerutil.

(** [AddFinalizer]: appends the finalizer unless it is already listed. *)
Definition AddFinalizer (finalizer : string) (o : metav1.ObjectMeta)
  : metav1.ObjectMeta :=
  let f := metav1.Finalizers o in
  if existsb (String.eqb finalizer) (elems f) then o
  else metav1.setFinalizers (Some (elems f ++ [finalizer])) o.

(** [RemoveFinalizer]: drops every occurrence of the finalizer; a nil list
    stays nil. *)
Definition RemoveFinalizer (finalizer : string) (o : metav1.ObjectMeta)
  : metav1.ObjectMeta :=
  let f := metav1.Finalizers o in
  metav1.setFinalizers
    (List.filter (λ e, negb (String.eqb e finalizer)) <$> f) o.

End controllerutil.

(** ** The Resource Store, through the Kubernetes client

    The store is external to the controller.  It is modelled as the list of
    CloudStackFailureDomain objects it holds, the requests it has received
    so far, and a script of faults: every call takes the next entry of the
    script, [Some e] making the call fail with [e] before it reaches the
    objects, [None] (or an exhausted script) letting it through.  A call
    that goes through answers as section 6 of the specification lists:
    [Create -> ok | AlreadyExists], [Delete -> ok | NotFound], and [List]
    answers with the objects owned by the subject. *)

Module client.

(** The failures of section 7 of the specification. *)
Inductive error : Type :=
  | NotFound
  | AlreadyExists
  | VersionConflict
  | StoreUnavailable (msg : string).

Inductive Request : Type :=
  | CreateReq (obj : infrav1.CloudStackFailureDomain.t)
  | ListReq (namespace owner : string)
  | DeleteReq (namespace name : string).

Record t : Type := mk {
  objects : list infrav1.CloudStackFailureDomain.t;
  faults : list (option error);
  requests : list Request
}.

(** The identity of a stored object: namespace and name. *)
Definition sameKey (namespace name : string)
    (fd : infrav1.CloudStackFailureDomain.t) : bool :=
  let m := infrav1.CloudStackFailureDomain.ObjectMeta fd in
  String.eqb (metav1.Namespace m) namespace && String.eqb (metav1.Name m) name.

(** [fd] lives in [namespace] and carries an owner reference to the
    CloudStackCluster called [owner]. *)
Definition ownedBy (namespace owner : string)
    (fd : infrav1.CloudStackFailureDomain.t) : bool :=
  let m := infrav1.CloudStackFailureDomain.ObjectMeta fd in
  String.eqb (metav1.Namespace m) namespace
  && existsb
       (λ o, String.eqb (metav1.OwnerReference.Kind o) "CloudStackCluster"
             && String.eqb (metav1.OwnerReference.Name o) owner)
       (elems (metav1.OwnerReferences m)).

(** Every call: record the request and take the next fault of the script. *)
Definition call (req : Request) (c : t) : option error * t :=
  match faults c with
  | [] => (None, mk (objects c) [] (requests c ++ [req]))
  | f :: fs => (f, mk (objects c) fs (requests c ++ [req]))
  end.

(** Section 6: [Create(object) -> ok | AlreadyExists]. *)
Definition Create (obj : infrav1.CloudStackFailureDomain.t) (c : t)
  : option error * t :=
  let '(f, c) := call (CreateReq obj) c in
  match f with
  | Some e => (Some e, c)
  | None =>
      let m := infrav1.CloudStackFailureDomain.ObjectMeta obj in
      if existsb (sameKey (metav1.Namespace m) (metav1.Name m)) (objects c)
      then (Some AlreadyExists, c)
      else (None, mk (objects c ++ [obj]) (faults c) (requests c))
  end.

(** Section 6: [List(selector) -> ordered sequence of objects]; the
    selector is the ownership by the subject. *)
Definition List (namespace owner : string) (c : t)
  : option error * list infrav1.CloudStackFailureDomain.t * t :=
  let '(f, c) := call (ListReq namespace owner) c in
  match f with
  | Some e => (Some e, [], c)
  | None => (None, List.filter (ownedBy namespace owner) (objects c), c)
  end.

(** Section 6: [Delete(identity) -> ok | NotFound].  A delete that goes
    through takes the object out of the store at once. *)
Definition Delete (obj : infrav1.CloudStackFailureDomain.t) (c : t)
  : option error * t :=
  let m := infrav1.CloudStackFailureDomain.ObjectMeta obj in
  let ns := metav1.Namespace m in
  let name := metav1.Name m in
  let '(f, c) := call (DeleteReq ns name) c in
  match f with
  | Some e => (Some e, c)
  | None =>
      if existsb (sameKey ns name) (objects c)
      then (None,
            mk (List.filter (λ fd, negb (sameKey ns name fd)) (objects c))
               (faults c) (requests c))
      else (Some NotFound, c)
  end.

End client.

(** ** Events and predicates of the controller runtime *)

Module event.

Record UpdateEvent (T : Type) : Type := mkUpdateEvent {
  ObjectOld : T;
  ObjectNew : T
}.
Arguments mkUpdateEvent {T} _ _.
Arguments ObjectOld {T} _.
Arguments ObjectNew {T} _.

Record CreateEvent (T : Type) : Type := mkCreateEvent {
  createdObject : T
}.
Arguments mkCreateEvent {T} _.

Record DeleteEvent (T : Type) : Type := mkDeleteEvent {
  deletedObject : T;
  DeleteStateUnknown : bool
}.
Arguments mkDeleteEvent {T} _ _.

End event.

Module predicate.

(** [predicate.Funcs]: a function left out is nil, and a nil function lets
    its events pass. *)
Record Funcs (T : Type) : Type := mkFuncs {
  CreateFunc : option (event.CreateEvent T → bool);
  DeleteFunc : option (event.DeleteEvent T → bool);
  UpdateFunc : option (event.UpdateEvent T → bool)
}.
Arguments mkFuncs {T} _ _ _.
Arguments CreateFunc {T} _.
Arguments DeleteFunc {T} _.
Arguments UpdateFunc {T} _.

Definition Create {T} (p : Funcs T) (e : event.CreateEvent T) : bool :=
  match CreateFunc p with Some f => f e | None => true end.

Definition Delete {T} (p : Funcs T) (e : event.DeleteEvent T) : bool :=
  match DeleteFunc p with Some f => f e | None => true end.

Definition Update {T} (p : Funcs T) (e : event.UpdateEvent T) : bool :=
  match UpdateFunc p with Some f => f e | None => true end.

End predicate.

(** ** The reconciliation runner *)

Module controllers.

(** [CloudStackClusterReconciliationRunner].  Of the embedded base runner
    the fields the controller uses are listed: the client, the log and the
    owning CAPI cluster, which is taken to be set (a nil [CAPICluster]
    would panic at line 123).  [CSCluster] is the same pointer as
    [ReconciliationSubject], so it has no field of its own. *)
Record CloudStackClusterReconciliationRunner : Type := mkRunner {
  K8sClient : client.t;
  Log : list string;
  CAPICluster : clusterv1.Cluster.t;
  FailureDomains : infrav1.CloudStackFailureDomainList;
  ReconciliationSubject : infrav1.CloudStackCluster.t
}.

Abbreviation Runner := CloudStackClusterReconciliationRunner.

(** What a reconciler method returns.  Go's [(ctrl.Result{}, nil)] is
    [Continue], [(ctrl.Result{}, err)] is [Error err], and what
    [RequeueWithMessage] returns is [Requeue] with its message: the three
    step results of section 4.1 of the specification. *)
Inductive Outcome : Type :=
  | Continue
  | Requeue (reason : string)
  | Error (err : client.error).

(** [CloudStackReconcilerMethod]. *)
Definition Method : Type := Runner → Outcome * Runner.

(** Assignments to parts of the runner. *)
Definition setK8sClient (c : client.t) (r : Runner) : Runner :=
  mkRunner c (Log r) (CAPICluster r) (FailureDomains r) (ReconciliationSubject r).

Definition setItems (l : list infrav1.CloudStackFailureDomain.t) (r : Runner)
  : Runner :=
  mkRunner (K8sClient r) (Log r) (CAPICluster r)
    (infrav1.mkCloudStackFailureDomainList l) (ReconciliationSubject r).

Definition setSubject (s : infrav1.CloudStackCluster.t) (r : Runner) : Runner :=
  mkRunner (K8sClient r) (Log r) (CAPICluster r) (FailureDomains r) s.

Definition setSubjectMeta (m : metav1.ObjectMeta) (r : Runner) : Runner :=
  let s := ReconciliationSubject r in
  setSubject
    (infrav1.CloudStackCluster.mk (infrav1.CloudStackCluster.TypeMeta s) m
       (infrav1.CloudStackCluster.Spec s) (infrav1.CloudStackCluster.Status s))
    r.

Definition setSubjectStatus (st : infrav1.CloudStackClusterStatus.t)
    (r : Runner) : Runner :=
  let s := ReconciliationSubject r in
  setSubject
    (infrav1.CloudStackCluster.mk (infrav1.CloudStackCluster.TypeMeta s)
       (infrav1.CloudStackCluster.ObjectMeta s)
       (infrav1.CloudStackCluster.Spec s) st)
    r.

(** Shorthands for the paths the methods read. *)
Definition subjectMeta (r : Runner) : metav1.ObjectMeta :=
  infrav1.CloudStackCluster.ObjectMeta (ReconciliationSubject r).

Definition subjectStatus (r : Runner) : infrav1.CloudStackClusterStatus.t :=
  infrav1.CloudStackCluster.Status (ReconciliationSubject r).

Definition specFailureDomains (r : Runner)
  : slice infrav1.CloudStackFailureDomainSpec.t :=
  infrav1.FailureDomains (infrav1.CloudStackCluster.Spec (ReconciliationSubject r)).

Definition capiClusterName (r : Runner) : string :=
  metav1.Name (clusterv1.Cluster.ObjectMeta (CAPICluster r)).

(** [r.Log.Info(msg)]. *)
Definition logInfo (msg : string) (r : Runner) : Runner :=
  mkRunner (K8sClient r) (Log r ++ [msg]) (CAPICluster r) (FailureDomains r)
    (ReconciliationSubject r).

(** *** The base runner

    The methods of [controllers/utils] the controller calls.  That package
    is not part of the controller's file. *)

(** Modelled from the spec: [RequeueWithMessage] of the base runner, which
    is missing; section 4.1: a step returns "requeue(reason, optional
    delay)", and section 4.3: "the requeue carries a human-readable
    reason". *)
Definition RequeueWithMessage (msg : string) : Method :=
  λ r, (Requeue msg, r).

(** Modelled from the spec: [ShouldReturn] of the base runner, which is
    missing; section 4.1: only "continue" proceeds to the next step, a
    requeue or an error stops. *)
Definition ShouldReturn (res : Outcome) : bool :=
  match res with
  | Continue => false
  | Requeue _ | Error _ => true
  end.

(** Modelled from the spec: [RunReconciliationStages] of the base runner,
    which is missing; section 4.1: "runs steps in a fixed order",
    "short-circuiting on requeue/error". *)
Fixpoint RunReconciliationStages (fns : list Method) (r : Runner)
  : Outcome * Runner :=
  match fns with
  | [] => (Continue, r)
  | fn :: fns' =>
      let '(res, r') := fn r in
      if ShouldReturn res then (res, r') else RunReconciliationStages fns' r'
  end.

(** Lines 123 to 125, on the loop's copy [fdSpec] of a declared spec: "Add
    cluster name suffix if missing."  Go's [a + "-" + b] is [(a + "-") + b]. *)
Definition addClusterNameSuffix (clusterName : string)
    (fdSpec : infrav1.CloudStackFailureDomainSpec.t)
  : infrav1.CloudStackFailureDomainSpec.t :=
  let name := infrav1.CloudStackFailureDomainSpec.Name fdSpec in
  if negb (strings.HasSuffix name ("-" +:+ clusterName))
  then infrav1.CloudStackFailureDomainSpec.setName
         ((name +:+ "-") +:+ clusterName) fdSpec
  else fdSpec.

(** Modelled from the spec: the object [CreateFailureDomains] creates for a
    normalized spec, its code missing; section 3: the dependent is "owned
    conceptually by exactly one Subject" and carries "its own readiness
    flag".  It lives in the subject's namespace under the spec's name and
    refers to the subject as its owner; a new object is not ready. *)
Definition newFailureDomain (r : Runner)
    (fdSpec : infrav1.CloudStackFailureDomainSpec.t)
  : infrav1.CloudStackFailureDomain.t :=
  let owner :=
    metav1.OwnerReference.mk
      (metav1.APIVersion (infrav1.CloudStackCluster.TypeMeta (ReconciliationSubject r)))
      "CloudStackCluster" (metav1.Name (subjectMeta r))
      (metav1.UID (subjectMeta r)) None None in
  infrav1.CloudStackFailureDomain.mk metav1.zeroTypeMeta
    (metav1.mkObjectMeta (infrav1.CloudStackFailureDomainSpec.Name fdSpec) ""
       (metav1.Namespace (subjectMeta r)) "" "" "" 0 0 None None None None
       (Some [owner]) None None)
    fdSpec (infrav1.mkCloudStackFailureDomainStatus false).

(** Modelled from the spec: the loop of [CreateFailureDomains], which is
    missing, over the remaining specs; section 4.3, EnsureExist: every
    normalized spec is created, a create that finds the name taken is a
    no-op, and section 7: any other failure of the store is an error that
    ends the step. *)
Fixpoint createEach (fdSpecs : list infrav1.CloudStackFailureDomainSpec.t)
    (r : Runner) : Outcome * Runner :=
  match fdSpecs with
  | [] => (Continue, r)
  | fdSpec :: rest =>
      let fd := newFailureDomain r (addClusterNameSuffix (capiClusterName r) fdSpec) in
      let '(err, c) := client.Create fd (K8sClient r) in
      match err with
      | None | Some client.AlreadyExists => createEach rest (setK8sClient c r)
      | Some e => (Error e, setK8sClient c r)
      end
  end.

(** Modelled from the spec: [CreateFailureDomains] of the base runner, which
    is missing; section 4.3, EnsureExist: "for each normalized spec, create
    the corresponding dependent resource if absent; creation is idempotent
    (a create against an already-existing name with identical content is a
    no-op, not an error)"; section 7: a store failure is an error. *)
Definition CreateFailureDomains
    (fdSpecs : slice infrav1.CloudStackFailureDomainSpec.t) : Method :=
  createEach (elems fdSpecs).

(** Modelled from the spec: [GetFailureDomains] of the base runner, which is
    missing; section 4.3, FetchAll: "lists all dependent resources owned by
    this Subject"; the answer is stored in the runner's [FailureDomains],
    the list the caller passes in. *)
Definition GetFailureDomains : Method :=
  λ r,
    let '(err, l, c) :=
      client.List (metav1.Namespace (subjectMeta r)) (metav1.Name (subjectMeta r))
        (K8sClient r) in
    match err with
    | Some e => (Error e, setK8sClient c r)
    | None => (Continue, setItems l (setK8sClient c r))
    end.

(** *** The methods of the controller *)

(** [SetReady] adds a finalizer and sets the cluster status to ready. *)
Definition SetReady : Method :=
  λ r,
    let r := setSubjectMeta
               (controllerutil.AddFinalizer infrav1.ClusterFinalizer (subjectMeta r))
               r in
    let r := setSubjectStatus
               (infrav1.CloudStackClusterStatus.mk
                  (infrav1.CloudStackClusterStatus.FailureDomains (subjectStatus r))
                  true)
               r in
    (Continue, r).

(** The message of line 113. *)
Definition notReadyMessage (fd : infrav1.CloudStackFailureDomain.t) : string :=
  let m := infrav1.CloudStackFailureDomain.ObjectMeta fd in
  "FailureDomains " +:+ metav1.Namespace m +:+ "/" +:+ metav1.Name m
  +:+ " not ready, requeueing.".

(** The message of line 109. *)
Definition countMessage (expected actual : Z) : string :=
  "Expected " +:+ sprint_d expected +:+ " FailureDomains, but found "
  +:+ sprint_d actual.

(** The loop of lines 111 to 115 over the remaining items. *)
Fixpoint verifyEach (items : list infrav1.CloudStackFailureDomain.t)
    (r : Runner) : Outcome * Runner :=
  match items with
  | [] => (Continue, r)
  | fd :: rest =>
      if negb (infrav1.fdReady (infrav1.CloudStackFailureDomain.Status fd))
      then RequeueWithMessage (notReadyMessage fd) r
      else verifyEach rest r
  end.

(** [VerifyFailureDomainCRDs] verifies the FailureDomains found match
    against those requested. *)
Definition VerifyFailureDomainCRDs : Method :=
  λ r,
    let expected := len (specFailureDomains r) in
    let actual := Z.of_nat (length (infrav1.Items (FailureDomains r))) in
    if negb (expected =? actual)
    then RequeueWithMessage (countMessage expected actual) r
    else verifyEach (infrav1.Items (FailureDomains r)) r.

(** The body of the loop of [SetFailureDomainsStatusMap]: [fdSpec] is the
    loop's own copy of the element, so the assignment of line 124 changes
    the copy, and line 126 writes into the status map of the subject. *)
Definition statusMapStep (r : Runner)
    (fdSpec : infrav1.CloudStackFailureDomainSpec.t) : Runner :=
  let fdSpec := addClusterNameSuffix (capiClusterName r) fdSpec in
  setSubjectStatus
    (infrav1.CloudStackClusterStatus.mk
       (map_assign (infrav1.CloudStackFailureDomainSpec.Name fdSpec)
          (clusterv1.mkFailureDomainSpec true None)
          (infrav1.CloudStackClusterStatus.FailureDomains (subjectStatus r)))
       (infrav1.CloudStackClusterStatus.Ready (subjectStatus r)))
    r.

(** [SetFailureDomainsStatusMap] sets failure domains in CloudStackCluster
    status to be used for CAPI machine placement. *)
Definition SetFailureDomainsStatusMap : Method :=
  λ r,
    let r := setSubjectStatus
               (infrav1.CloudStackClusterStatus.mk (Some ∅)
                  (infrav1.CloudStackClusterStatus.Ready (subjectStatus r)))
               r in
    (Continue, fold_left statusMapStep (elems (specFailureDomains r)) r).

(** [Reconcile] actually reconciles the CloudStackCluster.  The argument of
    [CreateFailureDomains] is read when the list of stages is built. *)
Definition Reconcile : Method :=
  λ r,
    RunReconciliationStages
      [ SetFailureDomainsStatusMap;
        CreateFailureDomains (specFailureDomains r);
        GetFailureDomains;
        VerifyFailureDomainCRDs;
        SetReady ]
      r.

(** The loop of lines 138 to 142 over the remaining items: the first
    failing delete ends it. *)
Fixpoint deleteEach (items : list infrav1.CloudStackFailureDomain.t)
    (r : Runner) : option client.error * Runner :=
  match items with
  | [] => (None, r)
  | fd :: rest =>
      let '(err, c) := client.Delete fd (K8sClient r) in
      match err with
      | Some e => (Some e, setK8sClient c r)
      | None => deleteEach rest (setK8sClient c r)
      end
  end.

(** [ReconcileDelete] cleans up resources used by the cluster and finally
    removes the CloudStackCluster's finalizers. *)
Definition ReconcileDelete : Method :=
  λ r,
    let r := logInfo "Deleting CloudStackCluster." r in
    let '(res, r) := GetFailureDomains r in
    if ShouldReturn res then (res, r)
    else if 0 <? Z.of_nat (length (infrav1.Items (FailureDomains r))) then
      match deleteEach (infrav1.Items (FailureDomains r)) r with
      | (Some err, r) => (Error err, r)
      | (None, r) =>
          RequeueWithMessage "Child FailureDomains still present, requeueing." r
      end
    else
      (Continue,
       setSubjectMeta
         (controllerutil.RemoveFinalizer infrav1.ClusterFinalizer (subjectMeta r))
         r).

(** *** The predicates of [SetupWithManager] *)

(** Lines 156 to 169: the copy of a cluster with resource version,
    finalizers, managed fields and status cleared. *)
Definition ignoreUpdates (c : infrav1.CloudStackCluster.t)
  : infrav1.CloudStackCluster.t :=
  let m := infrav1.CloudStackCluster.ObjectMeta c in
  let m := metav1.setResourceVersion "" m in
  let m := metav1.setFinalizers None m in
  let m := metav1.setManagedFields None m in
  infrav1.CloudStackCluster.mk (infrav1.CloudStackCluster.TypeMeta c) m
    (infrav1.CloudStackCluster.Spec c) infrav1.CloudStackClusterStatus.zero.

(** The event filter on CloudStackCluster objects (lines 153 to 173). *)
Definition clusterEventFilter : predicate.Funcs infrav1.CloudStackCluster.t :=
  predicate.mkFuncs None None
    (Some (λ e,
       let oldCluster := ignoreUpdates (event.ObjectOld e) in
       let newCluster := ignoreUpdates (event.ObjectNew e) in
       negb (deep_equal oldCluster newCluster))).

(** The predicate of the watch on CAPI Cluster objects (lines 184 to 191). *)
Definition capiClusterWatchPredicate : predicate.Funcs clusterv1.Cluster.t :=
  predicate.mkFuncs
    (Some (λ _, false))
    (Some (λ _, false))
    (Some (λ e,
       let oldCluster := event.ObjectOld e in
       let newCluster := event.ObjectNew e in
       clusterv1.Paused (clusterv1.Cluster.Spec oldCluster)
       && negb (clusterv1.Paused (clusterv1.Cluster.Spec newCluster)))).

End controllers.

(** * The vocabulary of the properties *)

Import controllers.

Section Vocabulary.

Implicit Types (r : Runner) (c : client.t).
Implicit Types (fd : infrav1.CloudStackFailureDomain.t).
Implicit Types (fdSpec : infrav1.CloudStackFailureDomainSpec.t).
Implicit Types (old new : infrav1.CloudStackCluster.t).

(** The entry written for every declared spec. *)
Definition controlPlaneEntry : clusterv1.FailureDomainSpec :=
  clusterv1.mkFailureDomainSpec true None.

(** The key under which a declared spec is entered. *)
Definition normalizedName (clusterName : string) fdSpec : string :=
  infrav1.CloudStackFailureDomainSpec.Name
    (addClusterNameSuffix clusterName fdSpec).

(** The insertions of the loop, on the map itself. *)
Definition insertAll (clusterName : string)
    (l : list infrav1.CloudStackFailureDomainSpec.t)
    (m : gmap string clusterv1.FailureDomainSpec)
  : gmap string clusterv1.FailureDomainSpec :=
  fold_left (λ m fdSpec, <[normalizedName clusterName fdSpec := controlPlaneEntry]> m)
    l m.

(** The readiness flag of a fetched dependent. *)
Definition isReady fd : bool :=
  infrav1.fdReady (infrav1.CloudStackFailureDomain.Status fd).

(** What the stages before [SetReady] leave alone: the subject's metadata
    (its finalizers among them), its spec, its readiness flag, and the
    owning cluster. *)
Definition preserved r r' : Prop :=
  subjectMeta r' = subjectMeta r
  ∧ infrav1.CloudStackCluster.Spec (ReconciliationSubject r')
    = infrav1.CloudStackCluster.Spec (ReconciliationSubject r)
  ∧ infrav1.CloudStackClusterStatus.Ready (subjectStatus r')
    = infrav1.CloudStackClusterStatus.Ready (subjectStatus r)
  ∧ CAPICluster r' = CAPICluster r.

(** The stages of [Reconcile] that come before the verification. *)
Definition stagesBeforeVerify r : list Method :=
  [ SetFailureDomainsStatusMap;
    CreateFailureDomains (specFailureDomains r);
    GetFailureDomains ].

(** The identity of a stored object. *)
Definition keyOf fd : string * string :=
  (metav1.Namespace (infrav1.CloudStackFailureDomain.ObjectMeta fd),
   metav1.Name (infrav1.CloudStackFailureDomain.ObjectMeta fd)).

(** The delete request issued for a dependent. *)
Definition deleteReqOf fd : client.Request :=
  client.DeleteReq
    (metav1.Namespace (infrav1.CloudStackFailureDomain.ObjectMeta fd))
    (metav1.Name (infrav1.CloudStackFailureDomain.ObjectMeta fd)).

(** The next [n] calls reach the store. *)
Definition letsThrough (n : nat) (fs : list (option client.error)) : Prop :=
  Forall (λ f, f = None) (take n fs).

(** No two stored objects share namespace and name. *)
Definition wellFormed c : Prop := NoDup (keyOf <$> client.objects c).

(** The fetch of the deletion step, as the runner sees it. *)
Definition fetchForDelete r : Outcome * Runner :=
  GetFailureDomains (logInfo "Deleting CloudStackCluster." r).

(** The dependents of the subject the store holds. *)
Definition observable r : list infrav1.CloudStackFailureDomain.t :=
  List.filter
    (client.ownedBy (metav1.Namespace (subjectMeta r)) (metav1.Name (subjectMeta r)))
    (client.objects (K8sClient r)).

(** Two versions of a cluster agree on everything the filter does not
    clear: the type meta, the spec, and every field of the object meta
    other than the resource version, the finalizers and the managed
    fields.  Their status is not constrained. *)
Definition differOnlyInIgnored old new : Prop :=
  let mo := infrav1.CloudStackCluster.ObjectMeta old in
  let mn := infrav1.CloudStackCluster.ObjectMeta new in
  infrav1.CloudStackCluster.TypeMeta old = infrav1.CloudStackCluster.TypeMeta new
  ∧ infrav1.CloudStackCluster.Spec old = infrav1.CloudStackCluster.Spec new
  ∧ metav1.Name mo = metav1.Name mn
  ∧ metav1.GenerateName mo = metav1.GenerateName mn
  ∧ metav1.Namespace mo = metav1.Namespace mn
  ∧ metav1.SelfLink mo = metav1.SelfLink mn
  ∧ metav1.UID mo = metav1.UID mn
  ∧ metav1.Generation mo = metav1.Generation mn
  ∧ metav1.CreationTimestamp mo = metav1.CreationTimestamp mn
  ∧ metav1.DeletionTimestamp mo = metav1.DeletionTimestamp mn
  ∧ metav1.DeletionGracePeriodSeconds mo = metav1.DeletionGracePeriodSeconds mn
  ∧ metav1.Labels mo = metav1.Labels mn
  ∧ metav1.Annotations mo = metav1.Annotations mn
  ∧ metav1.OwnerReferences mo = metav1.OwnerReferences mn.

(** The names of the fetched dependents. *)
Definition fetchedNames (r : Runner) : list string :=
  (λ fd, metav1.Name (infrav1.CloudStackFailureDomain.ObjectMeta fd))
    <$> infrav1.Items (FailureDomains r).

(** The normalized names of the declared specs. *)
Definition declaredNames (r : Runner) : list string :=
  normalizedName (capiClusterName r) <$> elems (specFailureDomains r).

(** The realized set is the declared set. *)
Definition sameNames (l1 l2 : list string) : Prop := ∀ n, n ∈ l1 ↔ n ∈ l2.



End Vocabulary.

(** ** [reflect.DeepEqual] decides equality

    None of the compared structs holds a function, a floating-point number
    or a cyclic pointer, so deep equality of two values is their equality,
    nil and empty kept apart by [None] and [Some]. *)

Class DeepEqualSpec (A : Type) `{DeepEqual A} : Prop :=
  deep_equal_spec : ∀ x y : A, deep_equal x y = true ↔ x = y.

(** * Concrete runners *)

Module Examples.

Definition exZone : infrav1.CloudStackZoneSpec.t :=
  infrav1.CloudStackZoneSpec.mk "zone1" "" (infrav1.mkNetwork "" "" "net1").

(** A declared failure domain called [name]. *)
Definition exSpec (name : string) : infrav1.CloudStackFailureDomainSpec.t :=
  infrav1.CloudStackFailureDomainSpec.mk name exZone "" ""
    (corev1.mkSecretReference "secret" "ns").

Definition exMeta (name : string) (finalizers : slice string)
  : metav1.ObjectMeta :=
  metav1.mkObjectMeta name "" "ns" "" "" "1" 1 0 None None None None None
    finalizers None.

(** The CloudStackCluster "ns/cs" declaring [specs]. *)
Definition exCluster (specs : list infrav1.CloudStackFailureDomainSpec.t)
    (status : infrav1.CloudStackClusterStatus.t) (finalizers : slice string)
  : infrav1.CloudStackCluster.t :=
  infrav1.CloudStackCluster.mk
    (metav1.mkTypeMeta "CloudStackCluster" "infrastructure.cluster.x-k8s.io/v1beta2")
    (exMeta "cs" finalizers)
    (infrav1.mkCloudStackClusterSpec (Some specs) (clusterv1.mkAPIEndpoint "" 0))
    status.

(** The owning CAPI cluster, called "demo". *)
Definition exOwner (paused : bool) : clusterv1.Cluster.t :=
  clusterv1.Cluster.mk (exMeta "demo" None) (clusterv1.mkClusterSpec paused).

(** A stored dependent of "ns/cs" called [name]. *)
Definition exDependent (name : string) (ready : bool)
  : infrav1.CloudStackFailureDomain.t :=
  infrav1.CloudStackFailureDomain.mk metav1.zeroTypeMeta
    (metav1.mkObjectMeta name "" "ns" "" "" "" 0 0 None None None None
       (Some [metav1.OwnerReference.mk "" "CloudStackCluster" "cs" "" None None])
       None None)
    (exSpec name) (infrav1.mkCloudStackFailureDomainStatus ready).

Definition exRunner (objects : list infrav1.CloudStackFailureDomain.t)
    (faults : list (option client.error))
    (subject : infrav1.CloudStackCluster.t) : Runner :=
  mkRunner (client.mk objects faults []) [] (exOwner false)
    (infrav1.mkCloudStackFailureDomainList []) subject.

(** A status left over from an earlier run. *)
Definition exStaleStatus : infrav1.CloudStackClusterStatus.t :=
  infrav1.CloudStackClusterStatus.mk
    (Some {[ "stale" := clusterv1.mkFailureDomainSpec false None ]}) false.

(** The subject declares "pool1" twice; the store holds "pool1-demo" and a
    dependent "old-demo" that is not declared, both ready. *)
Definition exDuplicateNames : Runner :=
  exRunner [exDependent "old-demo" true; exDependent "pool1-demo" true] []
    (exCluster [exSpec "pool1"; exSpec "pool1"]
       infrav1.CloudStackClusterStatus.zero None).

(** The subject declares "pool1" and the store holds its dependent,
    ready. *)
Definition exConverged : Runner :=
  exRunner [exDependent "pool1-demo" true] []
    (exCluster [exSpec "pool1"] exStaleStatus None).

(** Nothing is stored yet for the two declared specs, whose names
    normalize to the same name. *)
Definition exFresh : Runner :=
  exRunner [] []
    (exCluster [exSpec "pool1"; exSpec "pool1-demo"] exStaleStatus None).

(** A subject under deletion with two dependents left; the calls to the
    store meet [faults]. *)
Definition exDeleting (faults : list (option client.error)) : Runner :=
  exRunner [exDependent "pool1-demo" true; exDependent "pool2-demo" false]
    faults
    (exCluster [exSpec "pool1"; exSpec "pool2"] exStaleStatus
       (Some [infrav1.ClusterFinalizer])).

(** A subject under deletion with no dependent left. *)
Definition exDrained : Runner :=
  exRunner [] []
    (exCluster [exSpec "pool1"] exStaleStatus
       (Some ["other"; infrav1.ClusterFinalizer])).

(** Three declared specs, two fetched dependents. *)
Definition exCountMismatch : Runner :=
  mkRunner (client.mk [] [] []) [] (exOwner false)
    (infrav1.mkCloudStackFailureDomainList
       [exDependent "pool1-demo" true; exDependent "pool2-demo" true])
    (exCluster [exSpec "pool1"; exSpec "pool2"; exSpec "pool3"]
       infrav1.CloudStackClusterStatus.zero None).

(** The subject declares "pool1" and "pool2-demo"; its status still holds
    a "stale" entry. *)
Definition exTwoPools : Runner :=
  exRunner [] []
    (exCluster [exSpec "pool1"; exSpec "pool2-demo"] exStaleStatus None).

(** Two versions of "ns/cs" that differ in resource version, finalizers,
    managed fields and status only. *)
Definition exOld : infrav1.CloudStackCluster.t :=
  exCluster [exSpec "pool1"] infrav1.CloudStackClusterStatus.zero None.

Definition exNewStatus : infrav1.CloudStackCluster.t :=
  infrav1.CloudStackCluster.mk
    (infrav1.CloudStackCluster.TypeMeta exOld)
    (metav1.mkObjectMeta "cs" "" "ns" "" "" "2" 1 0 None None None None None
       (Some [infrav1.ClusterFinalizer])
       (Some [metav1.ManagedFieldsEntry.mk "manager" "Update" "" None "" None
                "status"]))
    (infrav1.CloudStackCluster.Spec exOld)
    (infrav1.CloudStackClusterStatus.mk
       (Some {[ "pool1-demo" := controlPlaneEntry ]}) true).

(** A version of "ns/cs" with one more declared failure domain. *)
Definition exNewSpec : infrav1.CloudStackCluster.t :=
  exCluster [exSpec "pool1"; exSpec "pool2"]
    infrav1.CloudStackClusterStatus.zero None.

End Examples.

(** * Vocabulary of the further properties *)

Section FurtherVocabulary.

Implicit Types (r : Runner) (old new : infrav1.CloudStackCluster.t).

(** The status map of the subject. *)
Definition statusMap r : clusterv1.FailureDomains :=
  infrav1.CloudStackClusterStatus.FailureDomains (subjectStatus r).

(** The finalizers of the subject, as a list. *)
Definition finalizersOf r : list string :=
  elems (metav1.Finalizers (subjectMeta r)).

(** The suffix the normalization looks for. *)
Definition clusterSuffix (clusterName : string) : string := "-" +:+ clusterName.

(** The answer of the update filter on CloudStackCluster objects. *)
Definition updateFires old new : bool :=
  predicate.Update clusterEventFilter (event.mkUpdateEvent old new).


(** The first call of the script reaches the store. *)
Definition firstCallThrough r : Prop :=
  default None (head (client.faults (K8sClient r))) = None.

End FurtherVocabulary.

Module MoreExamples.

Import Examples.

(** The subject declares nothing and the store holds nothing. *)
Definition exEmpty : Runner :=
  exRunner [] [] (exCluster [] exStaleStatus (Some ["other"])).

(** As [exTwoPools], the specs in the other order and one of them twice. *)
Definition exTwoPoolsShuffled : Runner :=
  exRunner [] []
    (exCluster [exSpec "pool2-demo"; exSpec "pool1-demo"; exSpec "pool2"]
       infrav1.CloudStackClusterStatus.zero None).

(** A dependent of another cluster, "ns/other", in the same namespace. *)
Definition exForeign : infrav1.CloudStackFailureDomain.t :=
  infrav1.CloudStackFailureDomain.mk metav1.zeroTypeMeta
    (metav1.mkObjectMeta "pool9-demo" "" "ns" "" "" "" 0 0 None None None None
       (Some [metav1.OwnerReference.mk "" "CloudStackCluster" "other" "" None None])
       None None)
    (exSpec "pool9-demo") (infrav1.mkCloudStackFailureDomainStatus true).

(** A subject under deletion with one dependent of its own next to a
    foreign one. *)
Definition exDeletingShared : Runner :=
  exRunner [exForeign; exDependent "pool1-demo" true] []
    (exCluster [exSpec "pool1"] exStaleStatus
       (Some ["other"; infrav1.ClusterFinalizer])).

(** "ns/cs" with a deletion timestamp. *)
Definition exOldDeleted : infrav1.CloudStackCluster.t :=
  infrav1.CloudStackCluster.mk
    (infrav1.CloudStackCluster.TypeMeta exOld)
    (metav1.mkObjectMeta "cs" "" "ns" "" "" "1" 1 0 (Some 7) None None None None
       None None)
    (infrav1.CloudStackCluster.Spec exOld)
    (infrav1.CloudStackCluster.Status exOld).

(** A dependent called "pool1-demo" of another cluster, "ns/other". *)
Definition exForeignPool1 : infrav1.CloudStackFailureDomain.t :=
  infrav1.CloudStackFailureDomain.mk metav1.zeroTypeMeta
    (metav1.mkObjectMeta "pool1-demo" "" "ns" "" "" "" 0 0 None None None None
       (Some [metav1.OwnerReference.mk "" "CloudStackCluster" "other" "" None None])
       None None)
    (exSpec "pool1-demo") (infrav1.mkCloudStackFailureDomainStatus true).

(** The subject declares "pool1"; the store holds a foreign "pool1-demo"
    and a dependent "old-demo" of the subject that is not declared. *)
Definition exForeignName : Runner :=
  exRunner [exForeignPool1; exDependent "old-demo" true] []
    (exCluster [exSpec "pool1"] infrav1.CloudStackClusterStatus.zero None).

End MoreExamples.

(** * Properties *)

(** ** Strings *)

Section StringFacts.

Lemma string_app_cons (c : ascii) (a b : string) :
  String c a +:+ b = String c (a +:+ b).
Proof. reflexivity. Qed.

Lemma string_length_app (a b : string) :
  String.length (a +:+ b) = (String.length a + String.length b)%nat.
Proof.
  induction a as [|c a IH]; [reflexivity|].
  rewrite string_app_cons. simpl. now rewrite IH.
Qed.

Lemma string_app_assoc (a b c : string) : (a +:+ b) +:+ c = a +:+ (b +:+ c).
Proof.
  induction a as [|x a IH]; [reflexivity|].
  rewrite !string_app_cons. now rewrite IH.
Qed.

Lemma substring_whole (s : string) : substring 0 (String.length s) s = s.
Proof. induction s as [|c s IH]; simpl; [reflexivity | now rewrite IH]. Qed.

Lemma substring_skip_prefix (p s : string) (n : nat) :
  substring (String.length p) n (p +:+ s) = substring 0 n s.
Proof.
  induction p as [|c p IH]; [reflexivity|].
  rewrite string_app_cons. simpl. exact IH.
Qed.

(** A string is its first [n] bytes followed by the rest. *)
Lemma substring_split (s : string) (n : nat) :
  (n ≤ String.length s)%nat →
  s = substring 0 n s +:+ substring n (String.length s - n) s.
Proof.
  revert n; induction s as [|c s IH]; intros [|n] Hn; simpl in *;
    try reflexivity; try lia.
  - now rewrite substring_whole.
  - rewrite string_app_cons. f_equal. apply IH. lia.
Qed.

(** [strings.HasSuffix s suffix] holds exactly when [s] ends with
    [suffix]. *)
Lemma HasSuffix_spec (s suffix : string) :
  strings.HasSuffix s suffix = true ↔ ∃ p, s = p +:+ suffix.
Proof.
  unfold strings.HasSuffix. rewrite andb_true_iff, Nat.leb_le, String.eqb_eq.
  split.
  - intros [Hlen Hsub]. exists (substring 0 (String.length s - String.length suffix) s).
    pose proof (substring_split s (String.length s - String.length suffix)) as H.
    replace (String.length s - (String.length s - String.length suffix))%nat
      with (String.length suffix) in H by lia.
    rewrite Hsub in H. apply H. lia.
  - intros [p ->]. rewrite string_length_app. split; [lia|].
    replace (String.length p + String.length suffix - String.length suffix)%nat
      with (String.length p) by lia.
    rewrite substring_skip_prefix. apply substring_whole.
Qed.

Lemma HasSuffix_app (p suffix : string) :
  strings.HasSuffix (p +:+ suffix) suffix = true.
Proof. apply HasSuffix_spec. now exists p. Qed.

End StringFacts.

(** ** Name normalization *)

Section Normalization.

Implicit Types (fdSpec : infrav1.CloudStackFailureDomainSpec.t).

Local Abbreviation NameOf := infrav1.CloudStackFailureDomainSpec.Name.

Lemma addClusterNameSuffix_name clusterName fdSpec :
  NameOf (addClusterNameSuffix clusterName fdSpec)
  = if strings.HasSuffix (NameOf fdSpec) ("-" +:+ clusterName)
    then NameOf fdSpec
    else NameOf fdSpec +:+ "-" +:+ clusterName.
Proof.
  unfold addClusterNameSuffix.
  destruct (strings.HasSuffix _ _); simpl; [reflexivity|].
  apply string_app_assoc.
Qed.

(** Only the name of the copy changes. *)
Lemma addClusterNameSuffix_rest clusterName fdSpec :
  let fdSpec' := addClusterNameSuffix clusterName fdSpec in
  infrav1.CloudStackFailureDomainSpec.Zone fdSpec'
    = infrav1.CloudStackFailureDomainSpec.Zone fdSpec
  ∧ infrav1.CloudStackFailureDomainSpec.Account fdSpec'
    = infrav1.CloudStackFailureDomainSpec.Account fdSpec
  ∧ infrav1.CloudStackFailureDomainSpec.Domain fdSpec'
    = infrav1.CloudStackFailureDomainSpec.Domain fdSpec
  ∧ infrav1.CloudStackFailureDomainSpec.ACSEndpoint fdSpec'
    = infrav1.CloudStackFailureDomainSpec.ACSEndpoint fdSpec.
Proof.
  unfold addClusterNameSuffix.
  destruct (negb _); simpl; repeat split; reflexivity.
Qed.

Lemma addClusterNameSuffix_has_suffix clusterName fdSpec :
  strings.HasSuffix (NameOf (addClusterNameSuffix clusterName fdSpec))
    ("-" +:+ clusterName) = true.
Proof.
  rewrite addClusterNameSuffix_name.
  destruct (strings.HasSuffix (NameOf fdSpec) _) eqn:E;
    [exact E | apply HasSuffix_app].
Qed.

Lemma addClusterNameSuffix_idem clusterName fdSpec :
  addClusterNameSuffix clusterName (addClusterNameSuffix clusterName fdSpec)
  = addClusterNameSuffix clusterName fdSpec.
Proof.
  unfold addClusterNameSuffix at 1.
  now rewrite addClusterNameSuffix_has_suffix.
Qed.

(** C5.  For a declared spec named [N] and an owning cluster named [C]:
    when [N] does not end with ["-" + C] the normalized name is
    [N + "-" + C]; when it does, the spec is left as it is; normalizing
    twice is normalizing once; and with the owner ["demo"], ["pool1"] and
    ["pool1-demo"] both normalize to ["pool1-demo"]. *)
Theorem C5_normalize_name :
  ∀ clusterName fdSpec,
    ((¬ ∃ p, NameOf fdSpec = p +:+ "-" +:+ clusterName) →
       NameOf (addClusterNameSuffix clusterName fdSpec)
       = NameOf fdSpec +:+ "-" +:+ clusterName)
    ∧ ((∃ p, NameOf fdSpec = p +:+ "-" +:+ clusterName) →
       addClusterNameSuffix clusterName fdSpec = fdSpec)
    ∧ addClusterNameSuffix clusterName (addClusterNameSuffix clusterName fdSpec)
      = addClusterNameSuffix clusterName fdSpec
    ∧ (NameOf fdSpec = "pool1" →
       NameOf (addClusterNameSuffix "demo" fdSpec) = "pool1-demo")
    ∧ (NameOf fdSpec = "pool1-demo" →
       NameOf (addClusterNameSuffix "demo" fdSpec) = "pool1-demo").
Proof.
  intros clusterName fdSpec. repeat split.
  - intros Hno. rewrite addClusterNameSuffix_name.
    destruct (strings.HasSuffix _ _) eqn:E; [|reflexivity].
    exfalso. apply Hno. now apply HasSuffix_spec.
  - intros Hyes. apply HasSuffix_spec in Hyes.
    unfold addClusterNameSuffix. now rewrite Hyes.
  - apply addClusterNameSuffix_idem.
  - intros E. rewrite addClusterNameSuffix_name, E. reflexivity.
  - intros E. rewrite addClusterNameSuffix_name, E. reflexivity.
Qed.

End Normalization.

(** ** The status projection *)

Section StatusMap.

Implicit Types (r : Runner) (fdSpec : infrav1.CloudStackFailureDomainSpec.t).

Lemma insertAll_lookup clusterName l m k :
  insertAll clusterName l m !! k
  = if decide (k ∈ normalizedName clusterName <$> l)
    then Some controlPlaneEntry
    else m !! k.
Proof.
  unfold insertAll. revert m; induction l as [|s l IH]; intros m.
  - cbn [fold_left]. rewrite fmap_nil, decide_False; [reflexivity|].
    apply not_elem_of_nil.
  - cbn [fold_left]. rewrite IH, fmap_cons.
    destruct (decide (k = normalizedName clusterName s)) as [->|Hne].
    + rewrite (decide_True (P := _ ∈ _ :: _)) by apply list_elem_of_here.
      rewrite lookup_insert_eq. case_decide; reflexivity.
    + rewrite lookup_insert_ne by congruence.
      repeat case_decide; try reflexivity.
      * exfalso. apply H0. now apply list_elem_of_further.
      * apply elem_of_cons in H0 as [?|?]; contradiction.
Qed.

Lemma insertAll_dom clusterName l m :
  dom (insertAll clusterName l m)
  = list_to_set (normalizedName clusterName <$> l) ∪ dom m.
Proof.
  apply set_eq. intros k.
  rewrite elem_of_union, elem_of_list_to_set, !elem_of_dom, insertAll_lookup.
  case_decide as Hk; split.
  - now left.
  - intros _. now eexists.
  - now right.
  - intros [?|?]; [contradiction | assumption].
Qed.

(** With pairwise different normalized names the map has one entry per
    spec. *)
Lemma insertAll_size clusterName l :
  NoDup (normalizedName clusterName <$> l) →
  size (insertAll clusterName l ∅) = length l.
Proof.
  intros Hnd. rewrite <- size_dom, insertAll_dom, dom_empty_L, union_empty_r_L.
  rewrite size_list_to_set by exact Hnd. apply length_fmap.
Qed.

(** The loop touches nothing but the status map, and fills it by
    [insertAll]. *)
Lemma fold_statusMapStep l r :
  fold_left statusMapStep l r
  = setSubjectStatus
      (infrav1.CloudStackClusterStatus.mk
         (insertAll (capiClusterName r) l
            <$> infrav1.CloudStackClusterStatus.FailureDomains (subjectStatus r))
         (infrav1.CloudStackClusterStatus.Ready (subjectStatus r)))
      r.
Proof.
  revert r; induction l as [|s l IH]; intros r; simpl.
  - destruct r as [c lg capi fds [tm om sp [m rd]]]. cbn.
    now destruct m.
  - rewrite IH. destruct r as [c lg capi fds [tm om sp [m rd]]]. cbn.
    now destruct m.
Qed.

(** What [SetFailureDomainsStatusMap] returns, in closed form. *)
Lemma SetFailureDomainsStatusMap_eq r :
  SetFailureDomainsStatusMap r
  = (Continue,
     setSubjectStatus
       (infrav1.CloudStackClusterStatus.mk
          (Some (insertAll (capiClusterName r) (elems (specFailureDomains r)) ∅))
          (infrav1.CloudStackClusterStatus.Ready (subjectStatus r)))
       r).
Proof.
  unfold SetFailureDomainsStatusMap. rewrite fold_statusMapStep.
  destruct r as [c lg capi fds [tm om sp [m rd]]]. reflexivity.
Qed.

(** C6.  Whatever the status held before, [SetFailureDomainsStatusMap]
    continues without an error and leaves as status map exactly the entries
    of the declared specs: a key is present if and only if it is the
    normalized name of a declared spec, and its entry is then
    [ControlPlane: true]; when the normalized names are pairwise different
    the map has as many entries as there are declared specs.  Two runners
    with the same declared specs and the same owner name end with the same
    map, whatever their prior status. *)
Theorem C6_status_map_rebuilt :
  ∀ r,
    let '(res, r') := SetFailureDomainsStatusMap r in
    res = Continue
    ∧ (∃ m,
         infrav1.CloudStackClusterStatus.FailureDomains (subjectStatus r') = Some m
         ∧ (∀ fdSpec, fdSpec ∈ elems (specFailureDomains r) →
              m !! normalizedName (capiClusterName r) fdSpec
              = Some controlPlaneEntry)
         ∧ (∀ k v, m !! k = Some v →
              v = controlPlaneEntry
              ∧ clusterv1.ControlPlane v = true
              ∧ ∃ fdSpec, fdSpec ∈ elems (specFailureDomains r)
                          ∧ k = normalizedName (capiClusterName r) fdSpec)
         ∧ (NoDup (normalizedName (capiClusterName r)
                     <$> elems (specFailureDomains r)) →
            size m = length (elems (specFailureDomains r))))
    ∧ (∀ r2,
         specFailureDomains r2 = specFailureDomains r →
         capiClusterName r2 = capiClusterName r →
         infrav1.CloudStackClusterStatus.FailureDomains
           (subjectStatus (SetFailureDomainsStatusMap r2).2)
         = infrav1.CloudStackClusterStatus.FailureDomains (subjectStatus r')).
Proof.
  intros r. rewrite SetFailureDomainsStatusMap_eq. split; [reflexivity|]. split.
  - eexists; split; [reflexivity|]. split; [|split].
    + intros s Hs. rewrite insertAll_lookup.
      rewrite decide_True; [reflexivity|].
      apply list_elem_of_fmap. now exists s.
    + intros k v. rewrite insertAll_lookup.
      case_decide as Hk; [|now rewrite lookup_empty].
      intros [= <-]. repeat split.
      apply list_elem_of_fmap in Hk as (s & -> & Hs). now exists s.
    + apply insertAll_size.
  - intros r2 Hspec Hname. rewrite SetFailureDomainsStatusMap_eq.
    cbn. now rewrite Hspec, Hname.
Qed.

(** C10.  [SetFailureDomainsStatusMap] leaves the declared specs as they
    were, names included: the suffix goes to the loop's copy.  Of the whole
    runner only the status map of the subject changes. *)
Theorem C10_spec_not_mutated :
  ∀ r,
    let r' := (SetFailureDomainsStatusMap r).2 in
    specFailureDomains r' = specFailureDomains r
    ∧ infrav1.CloudStackCluster.Spec (ReconciliationSubject r')
      = infrav1.CloudStackCluster.Spec (ReconciliationSubject r)
    ∧ r' = setSubjectStatus
             (infrav1.CloudStackClusterStatus.mk
                (infrav1.CloudStackClusterStatus.FailureDomains (subjectStatus r'))
                (infrav1.CloudStackClusterStatus.Ready (subjectStatus r)))
             r.
Proof.
  intros r. rewrite SetFailureDomainsStatusMap_eq. cbn.
  repeat split; reflexivity.
Qed.

End StatusMap.

(** ** Verification of the fetched failure domains *)

Section Verify.

Implicit Types (r : Runner) (fd : infrav1.CloudStackFailureDomain.t).

Lemma verifyEach_all_ready items r :
  Forall (λ fd, isReady fd = true) items → verifyEach items r = (Continue, r).
Proof.
  induction 1 as [|fd rest Hfd _ IH]; simpl; [reflexivity|].
  unfold isReady in Hfd. now rewrite Hfd.
Qed.

Lemma verifyEach_first_not_ready pre fd post r :
  Forall (λ fd, isReady fd = true) pre →
  isReady fd = false →
  verifyEach (pre ++ fd :: post) r = (Requeue (notReadyMessage fd), r).
Proof.
  intros Hpre Hfd. induction Hpre as [|x pre Hx _ IH]; simpl.
  - unfold isReady in Hfd. now rewrite Hfd.
  - unfold isReady in Hx. now rewrite Hx.
Qed.

(** A list of dependents is all ready, or splits at its first one that is
    not. *)
Lemma ready_or_first_not_ready (items : list infrav1.CloudStackFailureDomain.t) :
  Forall (λ fd, isReady fd = true) items
  ∨ ∃ pre fd post,
      items = pre ++ fd :: post
      ∧ Forall (λ fd, isReady fd = true) pre ∧ isReady fd = false.
Proof.
  induction items as [|x items [IH|(pre & fd & post & -> & Hpre & Hfd)]].
  - left. constructor.
  - destruct (isReady x) eqn:Hx.
    + left. now constructor.
    + right. exists [], x, items. repeat split; [constructor | assumption].
  - destruct (isReady x) eqn:Hx.
    + right. exists (x :: pre), fd, post. repeat split; [|assumption].
      now constructor.
    + right. exists [], x, (pre ++ fd :: post).
      repeat split; [constructor | assumption].
Qed.

Lemma VerifyFailureDomainCRDs_state r : (VerifyFailureDomainCRDs r).2 = r.
Proof.
  unfold VerifyFailureDomainCRDs. destruct (negb _); [reflexivity|].
  destruct (ready_or_first_not_ready (infrav1.Items (FailureDomains r)))
    as [H|(pre & fd & post & -> & Hpre & Hfd)].
  - now rewrite verifyEach_all_ready.
  - now rewrite verifyEach_first_not_ready.
Qed.



(** C4.  With [E] the number of declared specs and [A] the fetched
    dependents: when [E] differs from the size of [A] the step returns a
    requeue whose reason is "Expected E FailureDomains, but found |A|"
    (for 3 and 2, "Expected 3 FailureDomains, but found 2"); when the
    counts agree and some dependent is not ready it returns a requeue whose
    reason names the first such dependent by namespace and name; when the
    counts agree and all are ready it continues.  It never returns an
    error and never changes the runner. *)
Theorem C4_verify_requeues :
  ∀ r,
    let E := len (specFailureDomains r) in
    let A := infrav1.Items (FailureDomains r) in
    (E ≠ Z.of_nat (length A) →
       VerifyFailureDomainCRDs r
       = (Requeue ("Expected " +:+ sprint_d E +:+ " FailureDomains, but found "
                   +:+ sprint_d (Z.of_nat (length A))), r))
    ∧ (E = 3 → length A = 2%nat →
       VerifyFailureDomainCRDs r
       = (Requeue "Expected 3 FailureDomains, but found 2", r))
    ∧ (E = Z.of_nat (length A) →
       ∀ pre fd post,
         A = pre ++ fd :: post →
         Forall (λ fd, isReady fd = true) pre →
         isReady fd = false →
         VerifyFailureDomainCRDs r
         = (Requeue ("FailureDomains "
                     +:+ metav1.Namespace (infrav1.CloudStackFailureDomain.ObjectMeta fd)
                     +:+ "/"
                     +:+ metav1.Name (infrav1.CloudStackFailureDomain.ObjectMeta fd)
                     +:+ " not ready, requeueing."), r))
    ∧ (E = Z.of_nat (length A) →
       Forall (λ fd, isReady fd = true) A →
       VerifyFailureDomainCRDs r = (Continue, r))
    ∧ (Exists (λ fd, isReady fd = false) A →
       ∃ reason, VerifyFailureDomainCRDs r = (Requeue reason, r))
    ∧ (∀ err, (VerifyFailureDomainCRDs r).1 ≠ Error err).
Proof.
  intros r E A. subst E A. unfold VerifyFailureDomainCRDs.
  destruct (Z.eqb_spec (len (specFailureDomains r))
              (Z.of_nat (length (infrav1.Items (FailureDomains r)))))
    as [Heq|Hne]; cbn [negb].
  - split; [intros H; contradiction|].
    split; [intros H3 H2; rewrite H3, H2 in Heq; discriminate|].
    split; [intros _ pre fd post E Hpre Hfd;
            rewrite E; now apply verifyEach_first_not_ready|].
    split; [intros _ Hall; now apply verifyEach_all_ready|].
    destruct (ready_or_first_not_ready (infrav1.Items (FailureDomains r)))
      as [H|(pre & fd & post & E & Hpre & Hfd)].
    + rewrite verifyEach_all_ready by assumption. split; [|discriminate].
      intros Hex. apply Exists_exists in Hex as (fd & Hin & Hfd).
      rewrite Forall_forall in H. specialize (H fd Hin). congruence.
    + rewrite E, verifyEach_first_not_ready by assumption.
      split; [|discriminate]. intros _. now eexists.
  - split; [intros _; reflexivity|].
    split; [intros H3 H2; rewrite H3, H2; reflexivity|].
    split; [intros H; contradiction|].
    split; [intros H; contradiction|].
    split; [|discriminate]. intros _. now eexists.
Qed.

End Verify.

(** ** The Normal pipeline *)

Section Pipeline.

Implicit Types (r : Runner) (fd : infrav1.CloudStackFailureDomain.t).

Lemma preserved_refl r : preserved r r.
Proof. repeat split. Qed.

Lemma preserved_trans r1 r2 r3 :
  preserved r1 r2 → preserved r2 r3 → preserved r1 r3.
Proof.
  unfold preserved. intros (?&?&?&?) (?&?&?&?). repeat split; congruence.
Qed.

Lemma preserved_setK8sClient c r : preserved r (setK8sClient c r).
Proof. repeat split. Qed.

Lemma preserved_setItems l r : preserved r (setItems l r).
Proof. repeat split. Qed.

Lemma SetFailureDomainsStatusMap_preserved r :
  preserved r (SetFailureDomainsStatusMap r).2.
Proof. rewrite SetFailureDomainsStatusMap_eq. repeat split. Qed.

Lemma createEach_preserved l r : preserved r (createEach l r).2.
Proof.
  revert r; induction l as [|s l IH]; intros r; simpl.
  - apply preserved_refl.
  - destruct (client.Create _ _) as [[[| | |msg]|] c]; simpl;
      try apply preserved_setK8sClient;
      (eapply preserved_trans; [apply preserved_setK8sClient | apply IH]).
Qed.

(** The fetch either fails and leaves the fetched list alone, or continues
    with the list of the objects the store holds for the subject. *)
Lemma GetFailureDomains_cases r :
  let ns := metav1.Namespace (subjectMeta r) in
  let name := metav1.Name (subjectMeta r) in
  let c := (client.call (client.ListReq ns name) (K8sClient r)).2 in
  (∃ e, GetFailureDomains r = (Error e, setK8sClient c r))
  ∨ GetFailureDomains r
    = (Continue,
       setItems (List.filter (client.ownedBy ns name) (client.objects c))
         (setK8sClient c r)).
Proof.
  unfold GetFailureDomains, client.List.
  destruct (client.call _ _) as [[e|] c]; simpl; [left; now exists e | now right].
Qed.

Lemma GetFailureDomains_preserved r : preserved r (GetFailureDomains r).2.
Proof.
  destruct (GetFailureDomains_cases r) as [[e ->] | ->]; repeat split.
Qed.

(** [Reconcile], stage by stage. *)
Lemma Reconcile_eq r :
  Reconcile r
  = let r1 := (SetFailureDomainsStatusMap r).2 in
    let '(res2, r2) := CreateFailureDomains (specFailureDomains r) r1 in
    if ShouldReturn res2 then (res2, r2) else
    let '(res3, r3) := GetFailureDomains r2 in
    if ShouldReturn res3 then (res3, r3) else
    let '(res4, r4) := VerifyFailureDomainCRDs r3 in
    if ShouldReturn res4 then (res4, r4) else
    SetReady r4.
Proof.
  unfold Reconcile. cbn [RunReconciliationStages].
  rewrite SetFailureDomainsStatusMap_eq. cbn [ShouldReturn snd].
  destruct (CreateFailureDomains _ _) as [res2 r2].
  destruct (ShouldReturn res2); [reflexivity|].
  destruct (GetFailureDomains r2) as [res3 r3].
  destruct (ShouldReturn res3); [reflexivity|].
  destruct (VerifyFailureDomainCRDs r3) as [res4 r4].
  destruct (ShouldReturn res4); reflexivity.
Qed.

Lemma ShouldReturn_false res : ShouldReturn res = false ↔ res = Continue.
Proof. destruct res; simpl; split; congruence. Qed.

(** [controllerutil.AddFinalizer] leaves the finalizer listed. *)
Lemma AddFinalizer_elem (finalizer : string) (o : metav1.ObjectMeta) :
  finalizer ∈ elems (metav1.Finalizers (controllerutil.AddFinalizer finalizer o)).
Proof.
  unfold controllerutil.AddFinalizer.
  destruct (existsb _ _) eqn:E.
  - apply existsb_exists in E as (x & Hin & Hx).
    apply String.eqb_eq in Hx. subst x. now apply list_elem_of_In.
  - cbn. apply elem_of_app. right. apply list_elem_of_here.
Qed.

(** The two outcomes of a run of the Normal pipeline: it completed, and
    [SetReady] ran on the runner [r3] that passed the verification; or it
    stopped in an earlier stage and [SetReady] did not run. *)
Lemma Reconcile_cases r :
  (∃ r3,
     Reconcile r = SetReady r3
     ∧ preserved r r3
     ∧ VerifyFailureDomainCRDs r3 = (Continue, r3)
     ∧ infrav1.Items (FailureDomains r3)
       = List.filter
           (client.ownedBy (metav1.Namespace (subjectMeta r))
              (metav1.Name (subjectMeta r)))
           (client.objects (K8sClient r3)))
  ∨ ((Reconcile r).1 ≠ Continue ∧ preserved r (Reconcile r).2).
Proof.
  rewrite Reconcile_eq. cbv zeta.
  pose proof (SetFailureDomainsStatusMap_preserved r) as P1.
  set (r1 := (SetFailureDomainsStatusMap r).2) in *.
  pose proof (createEach_preserved (elems (specFailureDomains r)) r1) as P2.
  unfold CreateFailureDomains.
  destruct (createEach _ r1) as [res2 r2]. cbn [snd] in P2.
  assert (P12 : preserved r r2) by (eapply preserved_trans; eassumption).
  destruct (ShouldReturn res2) eqn:S2.
  { right. split; [|exact P12]. cbn. intros ->. discriminate. }
  pose proof (GetFailureDomains_preserved r2) as P3.
  pose proof (GetFailureDomains_cases r2) as C3.
  destruct (GetFailureDomains r2) as [res3 r3]. cbn [snd] in P3.
  assert (P13 : preserved r r3) by (eapply preserved_trans; eassumption).
  destruct (ShouldReturn res3) eqn:S3.
  { right. split; [|exact P13]. cbn. intros ->. discriminate. }
  pose proof (VerifyFailureDomainCRDs_state r3) as P4.
  destruct (VerifyFailureDomainCRDs r3) as [res4 r4] eqn:V. cbn [snd] in P4.
  subst r4.
  destruct (ShouldReturn res4) eqn:S4.
  { right. split; [|exact P13]. cbn. intros ->. discriminate. }
  left. exists r3. apply ShouldReturn_false in S4. subst res4.
  split; [reflexivity|]. split; [exact P13|]. split; [exact V|].
  apply ShouldReturn_false in S3. subst res3.
  cbv zeta in C3. destruct C3 as [[e C3]|C3]; [discriminate|].
  injection C3 as ->. cbn.
  destruct P12 as (-> & _). reflexivity.
Qed.

End Pipeline.

Section NormalMode.

Implicit Types (r : Runner) (fd : infrav1.CloudStackFailureDomain.t).




(** C9.  [SetReady] always continues, and after it [Status.Ready] is true
    and the cluster finalizer is among the subject's finalizers; so after
    every run of the Normal pipeline that completes, [Status.Ready] is true
    and the finalizer is present. *)
Theorem C9_ready_with_finalizer :
  ∀ r,
    (let '(res, r') := SetReady r in
     res = Continue
     ∧ infrav1.CloudStackClusterStatus.Ready (subjectStatus r') = true
     ∧ infrav1.ClusterFinalizer ∈ elems (metav1.Finalizers (subjectMeta r')))
    ∧ (let '(res, r') := Reconcile r in
       res = Continue →
       infrav1.CloudStackClusterStatus.Ready (subjectStatus r') = true
       ∧ infrav1.ClusterFinalizer ∈ elems (metav1.Finalizers (subjectMeta r'))).
Proof.
  assert (HS : ∀ r,
    infrav1.CloudStackClusterStatus.Ready (subjectStatus (SetReady r).2) = true
    ∧ infrav1.ClusterFinalizer
      ∈ elems (metav1.Finalizers (subjectMeta (SetReady r).2))).
  { intros r. split; [reflexivity|]. cbn. apply AddFinalizer_elem. }
  intros r. split.
  - specialize (HS r). destruct (SetReady r) as [res r'] eqn:E.
    split; [|exact HS]. unfold SetReady in E. now injection E as <- _.
  - destruct (Reconcile r) as [res r'] eqn:HR. intros ->.
    destruct (Reconcile_cases r) as [(r3 & E & _)|[Hne _]].
    + rewrite HR in E. specialize (HS r3). now rewrite <- E in HS.
    + rewrite HR in Hne. now contradiction Hne.
Qed.

End NormalMode.

(** ** The store *)

Section Store.

Implicit Types (fd o : infrav1.CloudStackFailureDomain.t) (c : client.t).

Lemma sameKey_spec ns name o :
  client.sameKey ns name o = true ↔ keyOf o = (ns, name).
Proof.
  unfold client.sameKey, keyOf.
  rewrite andb_true_iff, !String.eqb_eq. split.
  - now intros [-> ->].
  - now intros [= -> ->].
Qed.

Lemma existsb_sameKey fd (os : list infrav1.CloudStackFailureDomain.t) :
  existsb
    (client.sameKey
       (metav1.Namespace (infrav1.CloudStackFailureDomain.ObjectMeta fd))
       (metav1.Name (infrav1.CloudStackFailureDomain.ObjectMeta fd)))
    os = true
  ↔ keyOf fd ∈ keyOf <$> os.
Proof.
  rewrite existsb_exists, list_elem_of_fmap. split.
  - intros (o & Hin & Hk). apply sameKey_spec in Hk.
    exists o. split; [now symmetry | now apply list_elem_of_In].
  - intros (o & Hk & Hin). exists o. split; [now apply list_elem_of_In|].
    apply sameKey_spec. now symmetry.
Qed.

Lemma elem_of_List_filter {A} (P : A → bool) (l : list A) (x : A) :
  x ∈ List.filter P l ↔ x ∈ l ∧ P x = true.
Proof. rewrite !list_elem_of_In. apply filter_In. Qed.

Lemma NoDup_fmap_List_filter {A B} (f : A → B) (P : A → bool) (l : list A) :
  NoDup (f <$> l) → NoDup (f <$> List.filter P l).
Proof.
  induction l as [|x l IH]; simpl; [auto|].
  rewrite NoDup_cons. intros [Hx Hl].
  destruct (P x); simpl; [|auto].
  apply NoDup_cons. split; [|auto].
  intros Hin. apply Hx.
  apply list_elem_of_fmap in Hin as (y & -> & Hy).
  apply elem_of_List_filter in Hy as [Hy _].
  apply list_elem_of_fmap. now exists y.
Qed.

(** What a call does to the client, whatever the request. *)
Lemma call_eq req c :
  client.call req c
  = (default None (head (client.faults c)),
     client.mk (client.objects c) (tail (client.faults c))
       (client.requests c ++ [req])).
Proof. unfold client.call. now destruct (client.faults c). Qed.

Lemma letsThrough_S n fs :
  letsThrough (S n) fs →
  default None (head fs) = None ∧ letsThrough n (tail fs).
Proof.
  unfold letsThrough. destruct fs as [|f fs]; simpl.
  - intros _. split; [reflexivity|]. now rewrite take_nil.
  - intros H. apply Forall_cons in H as [-> H]. now split.
Qed.

End Store.

(** ** Deletion *)

Section Deletion.

Implicit Types (r : Runner) (fd o : infrav1.CloudStackFailureDomain.t).

(** The delete loop changes nothing but the client. *)
Lemma deleteEach_frame items r :
  (deleteEach items r).2 = setK8sClient (K8sClient (deleteEach items r).2) r.
Proof.
  revert r; induction items as [|fd rest IH]; intros r; simpl.
  - now destruct r.
  - destruct (client.Delete fd (K8sClient r)) as [[e|] c]; simpl.
    + reflexivity.
    + rewrite IH at 1. reflexivity.
Qed.

(** When the store holds every item, no two items share a key and the next
    calls all reach the store, the loop deletes every item: one request per
    item, in order, and the items are gone from the store. *)
Lemma deleteEach_through items r :
  letsThrough (length items) (client.faults (K8sClient r)) →
  NoDup (keyOf <$> items) →
  (∀ fd, fd ∈ items → keyOf fd ∈ keyOf <$> client.objects (K8sClient r)) →
  ∃ c',
    deleteEach items r = (None, setK8sClient c' r)
    ∧ client.requests c'
      = client.requests (K8sClient r) ++ (deleteReqOf <$> items)
    ∧ client.faults c' = drop (length items) (client.faults (K8sClient r))
    ∧ (∀ o, o ∈ client.objects c'
            ↔ o ∈ client.objects (K8sClient r) ∧ keyOf o ∉ keyOf <$> items).
Proof.
  revert r; induction items as [|fd rest IH]; intros r Hf Hnd Hin.
  - exists (K8sClient r). simpl. split; [now destruct r|].
    split; [now rewrite app_nil_r|]. split; [reflexivity|].
    intros o. split; [|tauto]. intros Ho. split; [exact Ho|].
    apply not_elem_of_nil.
  - cbn [length] in Hf. apply letsThrough_S in Hf as [Hhd Htl].
    rewrite fmap_cons in Hnd. apply NoDup_cons in Hnd as [Hfd Hnd].
    cbn [deleteEach]. unfold client.Delete. rewrite call_eq, Hhd.
    cbn [client.objects client.faults client.requests].
    assert (Hex : keyOf fd ∈ keyOf <$> client.objects (K8sClient r))
      by (apply Hin, list_elem_of_here).
    apply existsb_sameKey in Hex. rewrite Hex.
    set (c1 := client.mk _ _ _).
    destruct (IH (setK8sClient c1 r)) as (c' & E & Hreq & Hfl & Hobj).
    + exact Htl.
    + exact Hnd.
    + intros x Hx. cbn.
      specialize (Hin x (list_elem_of_further _ _ _ Hx)).
      apply list_elem_of_fmap in Hin as (y & Hk & Hy).
      apply list_elem_of_fmap. exists y. split; [exact Hk|].
      apply elem_of_List_filter. split; [exact Hy|].
      apply negb_true_iff, not_true_iff_false. intros Hs.
      apply sameKey_spec in Hs. apply Hfd.
      apply list_elem_of_fmap. exists x. split; [|exact Hx].
      unfold keyOf at 1. congruence.
    + exists c'. split; [exact E|]. split; [|split].
      * rewrite Hreq. cbn. now rewrite <- app_assoc.
      * rewrite Hfl. cbn.
        destruct (client.faults (K8sClient r)); simpl;
          [apply drop_nil | reflexivity].
      * intros o. rewrite Hobj. cbn. rewrite elem_of_List_filter.
        rewrite negb_true_iff, <- not_true_iff_false, sameKey_spec.
        rewrite not_elem_of_cons. unfold keyOf at 2. tauto.
Qed.

Lemma deleteEach_app items1 items2 r :
  deleteEach (items1 ++ items2) r
  = match deleteEach items1 r with
    | (Some e, r') => (Some e, r')
    | (None, r') => deleteEach items2 r'
    end.
Proof.
  revert r; induction items1 as [|fd rest IH]; intros r; simpl.
  - reflexivity.
  - destruct (client.Delete fd (K8sClient r)) as [[e|] c]; [reflexivity|].
    apply IH.
Qed.

(** When the call of the delete number [k + 1] fails with [e] and the
    calls before it reach the store, the loop ends there with [e]: the
    requests issued are those for the first [k + 1] items. *)
Lemma deleteEach_fault k items r e fs :
  client.faults (K8sClient r) = replicate k None ++ Some e :: fs →
  (k < length items)%nat →
  NoDup (keyOf <$> items) →
  (∀ fd, fd ∈ items → keyOf fd ∈ keyOf <$> client.objects (K8sClient r)) →
  ∃ c',
    deleteEach items r = (Some e, setK8sClient c' r)
    ∧ client.requests c'
      = client.requests (K8sClient r) ++ (deleteReqOf <$> take (S k) items).
Proof.
  intros Hf Hk Hnd Hin.
  destruct (lookup_lt_is_Some_2 items k Hk) as [fd Hfd].
  rewrite (take_S_r _ _ _ Hfd).
  pose proof (take_drop_middle items k fd Hfd) as Hsplit.
  destruct (deleteEach_through (take k items) r) as (c1 & E & Hreq & Hfl & _).
  - unfold letsThrough. rewrite Hf, length_take, Nat.min_l by lia.
    rewrite take_app_le by (rewrite length_replicate; lia).
    rewrite take_replicate, Nat.min_id. now apply Forall_replicate.
  - rewrite <- (take_drop k items), fmap_app in Hnd.
    now apply NoDup_app in Hnd as [? _].
  - intros x Hx. apply Hin. rewrite <- (take_drop k items).
    apply elem_of_app. now left.
  - rewrite length_take, Nat.min_l in Hfl by lia.
    rewrite Hf in Hfl.
    replace k with (length (replicate k (@None client.error))) in Hfl at 1
      by apply length_replicate.
    rewrite drop_app_length in Hfl.
    replace (deleteEach items r)
      with (deleteEach (take k items ++ fd :: drop (S k) items) r)
      by (now rewrite Hsplit).
    rewrite deleteEach_app, E.
    cbn [deleteEach K8sClient setK8sClient].
    unfold client.Delete. rewrite call_eq, Hfl.
    cbn. eexists. split; [reflexivity|]. cbn.
    rewrite Hreq, fmap_app, <- app_assoc.
    reflexivity.
Qed.

(** [ReconcileDelete], case by case on the answer of the fetch. *)
Lemma ReconcileDelete_eq r :
  let r0 := logInfo "Deleting CloudStackCluster." r in
  let ns := metav1.Namespace (subjectMeta r) in
  let name := metav1.Name (subjectMeta r) in
  let c := K8sClient r in
  let c1 := client.mk (client.objects c) (tail (client.faults c))
              (client.requests c ++ [client.ListReq ns name]) in
  let l := List.filter (client.ownedBy ns name) (client.objects c) in
  let r1 := setItems l (setK8sClient c1 r0) in
  ReconcileDelete r
  = match default None (head (client.faults c)) with
    | Some e => (Error e, setK8sClient c1 r0)
    | None =>
        match l with
        | [] =>
            (Continue,
             setSubjectMeta
               (controllerutil.RemoveFinalizer infrav1.ClusterFinalizer
                  (subjectMeta r))
               r1)
        | _ :: _ =>
            match deleteEach l r1 with
            | (Some err, r2) => (Error err, r2)
            | (None, r2) =>
                (Requeue "Child FailureDomains still present, requeueing.", r2)
            end
        end
    end.
Proof.
  cbv zeta. unfold ReconcileDelete, GetFailureDomains, client.List.
  rewrite call_eq. cbn [logInfo K8sClient subjectMeta ReconciliationSubject].
  destruct (default None (head (client.faults (K8sClient r)))) as [e|];
    cbn [ShouldReturn]; [reflexivity|].
  cbn [client.objects setItems FailureDomains infrav1.Items].
  destruct (List.filter _ _) as [|fd l]; [reflexivity|].
  cbn [length]. rewrite Nat2Z.inj_succ.
  replace (0 <? Z.succ (Z.of_nat (length l))) with true
    by (symmetry; apply Z.ltb_lt; lia).
  reflexivity.
Qed.

(** [controllerutil.RemoveFinalizer] leaves no occurrence of the
    finalizer. *)
Lemma RemoveFinalizer_not_elem (finalizer : string) (o : metav1.ObjectMeta) :
  finalizer
  ∉ elems (metav1.Finalizers (controllerutil.RemoveFinalizer finalizer o)).
Proof.
  unfold controllerutil.RemoveFinalizer. cbn.
  destruct (metav1.Finalizers o) as [l|]; cbn; [|apply not_elem_of_nil].
  intros Hin. apply elem_of_List_filter in Hin as [_ Hne].
  now rewrite String.eqb_refl in Hne.
Qed.

Lemma fetchForDelete_eq r :
  let r0 := logInfo "Deleting CloudStackCluster." r in
  let c := K8sClient r in
  let c1 := client.mk (client.objects c) (tail (client.faults c))
              (client.requests c
               ++ [client.ListReq (metav1.Namespace (subjectMeta r))
                     (metav1.Name (subjectMeta r))]) in
  fetchForDelete r
  = match default None (head (client.faults c)) with
    | Some e => (Error e, setK8sClient c1 r0)
    | None => (Continue, setItems (observable r) (setK8sClient c1 r0))
    end.
Proof.
  cbv zeta. unfold fetchForDelete, GetFailureDomains, client.List.
  rewrite call_eq. cbn [logInfo K8sClient subjectMeta ReconciliationSubject].
  now destruct (default None (head (client.faults (K8sClient r)))).
Qed.

(** C2.  In a run of [ReconcileDelete] the subject's metadata, and so its
    finalizers, stay as they were whenever the store holds a dependent of
    the subject, and whenever the fetch fails; they change only when the
    fetch continued with an empty list, the run then succeeds, and the
    change is the removal of the cluster finalizer. *)
Theorem C2_finalizer_kept_while_dependents_exist :
  ∀ r,
    let '(res, r') := ReconcileDelete r in
    (observable r ≠ [] → subjectMeta r' = subjectMeta r)
    ∧ (subjectMeta r' ≠ subjectMeta r →
       res = Continue
       ∧ observable r = []
       ∧ (∃ r1, fetchForDelete r = (Continue, r1)
                ∧ infrav1.Items (FailureDomains r1) = [])
       ∧ subjectMeta r'
         = controllerutil.RemoveFinalizer infrav1.ClusterFinalizer (subjectMeta r))
    ∧ (∀ e r1, fetchForDelete r = (Error e, r1) →
       res = Error e ∧ subjectMeta r' = subjectMeta r).
Proof.
  intros r. pose proof (ReconcileDelete_eq r) as E.
  pose proof (fetchForDelete_eq r) as F. cbv zeta in E, F.
  fold (observable r) in E.
  destruct (ReconcileDelete r) as [res r'].
  destruct (default None (head (client.faults (K8sClient r)))) as [e|].
  { injection E as -> ->. split; [reflexivity|]. split.
    - intros H. now contradiction H.
    - intros e' r1 H. rewrite F in H. now injection H as <- _. }
  destruct (observable r) as [|fd l] eqn:Hobs.
  { injection E as -> ->. split; [intros H; now contradiction H|]. split.
    - intros _. split; [reflexivity|]. split; [reflexivity|].
      split; [|reflexivity]. eexists. split; [exact F | reflexivity].
    - intros e' r1 H. rewrite F in H. discriminate. }
  set (r1 := setItems _ _) in *.
  pose proof (deleteEach_frame (fd :: l) r1) as Hframe.
  assert (Hmeta : subjectMeta r' = subjectMeta r).
  { destruct (deleteEach (fd :: l) r1) as [[err|] r2];
      injection E as -> ->; cbn [snd] in Hframe; now rewrite Hframe. }
  split; [auto|]. split.
  - intros H. now contradiction H.
  - intros e' r2 H. rewrite F in H. discriminate.
Qed.

Lemma observable_keys r :
  wellFormed (K8sClient r) →
  NoDup (keyOf <$> observable r)
  ∧ ∀ fd, fd ∈ observable r → keyOf fd ∈ keyOf <$> client.objects (K8sClient r).
Proof.
  intros Hwf. split.
  - now apply NoDup_fmap_List_filter.
  - intros fd Hfd. apply elem_of_List_filter in Hfd as [Hfd _].
    apply list_elem_of_fmap. now exists fd.
Qed.

(** C3.  With [fetched] the dependents the fetch returns:
    when [fetched] is not empty, the store is well formed and all calls
    reach it, [ReconcileDelete] issues one delete request per fetched
    dependent, in order, and returns the requeue, the subject's metadata
    unchanged; when instead the call of delete number [k + 1] fails with
    [e], the step returns the error [e] after the requests for the first
    [k + 1] dependents, the metadata unchanged; with a non-empty fetch the
    step never returns success; and when [fetched] is empty the step removes
    the finalizer and returns success, neither a requeue nor an error. *)
Theorem C3_delete_then_requeue :
  ∀ r,
    let c := K8sClient r in
    let ns := metav1.Namespace (subjectMeta r) in
    let name := metav1.Name (subjectMeta r) in
    let fetched := observable r in
    let '(res, r') := ReconcileDelete r in
    (fetched ≠ [] → wellFormed c →
     letsThrough (S (length fetched)) (client.faults c) →
       res = Requeue "Child FailureDomains still present, requeueing."
       ∧ client.requests (K8sClient r')
         = client.requests c
           ++ (client.ListReq ns name :: (deleteReqOf <$> fetched))
       ∧ infrav1.Items (FailureDomains r') = fetched
       ∧ subjectMeta r' = subjectMeta r)
    ∧ (∀ k e fs,
         wellFormed c → (k < length fetched)%nat →
         client.faults c = replicate (S k) None ++ Some e :: fs →
         res = Error e
         ∧ client.requests (K8sClient r')
           = client.requests c
             ++ (client.ListReq ns name :: (deleteReqOf <$> take (S k) fetched))
         ∧ subjectMeta r' = subjectMeta r)
    ∧ (fetched ≠ [] → default None (head (client.faults c)) = None →
       (res = Requeue "Child FailureDomains still present, requeueing."
        ∨ ∃ e, res = Error e)
       ∧ subjectMeta r' = subjectMeta r)
    ∧ (fetched = [] → default None (head (client.faults c)) = None →
       res = Continue
       ∧ subjectMeta r'
         = controllerutil.RemoveFinalizer infrav1.ClusterFinalizer (subjectMeta r)
       ∧ (infrav1.ClusterFinalizer ∉ elems (metav1.Finalizers (subjectMeta r')))
       ∧ client.requests (K8sClient r')
         = client.requests c ++ [client.ListReq ns name]).
Proof.
  intros r. pose proof (ReconcileDelete_eq r) as E. cbv zeta in E |- *.
  fold (observable r) in E.
  destruct (ReconcileDelete r) as [res r'].
  set (r1 := setItems _ _) in E.
  split; [|split; [|split]].
  - intros Hne Hwf Hf. apply letsThrough_S in Hf as [Hhd Htl].
    rewrite Hhd in E. destruct (observable r) as [|fd l] eqn:Hobs;
      [now contradiction Hne|].
    destruct (observable_keys r Hwf) as [Hnd Hin]. rewrite Hobs in Hnd, Hin.
    destruct (deleteEach_through (fd :: l) r1) as (c' & D & Hreq & _);
      [exact Htl | exact Hnd | exact Hin |].
    rewrite D in E. injection E as -> ->. split; [reflexivity|].
    split; [cbn [K8sClient setK8sClient]; rewrite Hreq; cbn;
            now rewrite <- app_assoc|].
    split; [reflexivity|]. reflexivity.
  - intros k e fs Hwf Hk Hf. rewrite Hf in E. cbn [replicate app head default] in E.
    destruct (observable r) as [|fd l] eqn:Hobs; [cbn in Hk; lia|].
    destruct (observable_keys r Hwf) as [Hnd Hin]. rewrite Hobs in Hnd, Hin.
    destruct (deleteEach_fault k (fd :: l) r1 e fs) as (c' & D & Hreq);
      [unfold r1; cbn; now rewrite Hf | exact Hk | exact Hnd | exact Hin |].
    rewrite D in E. injection E as -> ->. split; [reflexivity|].
    split; [|reflexivity]. cbn [K8sClient setK8sClient]. rewrite Hreq. cbn.
    now rewrite <- app_assoc.
  - intros Hne Hhd. rewrite Hhd in E.
    destruct (observable r) as [|fd l]; [now contradiction Hne|].
    pose proof (deleteEach_frame (fd :: l) r1) as Hframe.
    destruct (deleteEach (fd :: l) r1) as [[err|] r2];
      injection E as -> ->; cbn [snd] in Hframe; rewrite Hframe;
      (split; [|reflexivity]); [right; now exists err | now left].
  - intros Hempty Hhd. rewrite Hhd, Hempty in E. injection E as -> ->.
    split; [reflexivity|]. split; [reflexivity|].
    split; [|reflexivity]. apply RemoveFinalizer_not_elem.
Qed.

End Deletion.

(** ** The declared and the realized set *)

Section DeclaredSet.

Implicit Types (r : Runner) (fd o : infrav1.CloudStackFailureDomain.t).







End DeclaredSet.

(** ** [reflect.DeepEqual] decides equality *)

#[export] Instance DeepEqualSpec_string : DeepEqualSpec string.
Proof. intros x y. apply String.eqb_eq. Qed.

#[export] Instance DeepEqualSpec_Z : DeepEqualSpec Z.
Proof. intros x y. apply Z.eqb_eq. Qed.

#[export] Instance DeepEqualSpec_bool : DeepEqualSpec bool.
Proof. intros x y. apply Bool.eqb_true_iff. Qed.

#[export] Instance DeepEqualSpec_ascii : DeepEqualSpec ascii.
Proof. intros x y. apply Ascii.eqb_eq. Qed.

#[export] Instance DeepEqualSpec_list {A} `{DeepEqualSpec A} :
  DeepEqualSpec (list A).
Proof.
  intros l1. induction l1 as [|x l1 IH]; intros [|y l2];
    unfold deep_equal, DeepEqual_list; cbn [deep_equal_list];
    try (split; [discriminate | discriminate]); [easy|].
  rewrite andb_true_iff, deep_equal_spec.
  unfold deep_equal, DeepEqual_list in IH. rewrite IH.
  split; [now intros [-> ->] | now intros [= -> ->]].
Qed.

#[export] Instance DeepEqualSpec_option {A} `{DeepEqualSpec A} :
  DeepEqualSpec (option A).
Proof.
  intros [x|] [y|]; unfold deep_equal, DeepEqual_option;
    try (split; [discriminate | discriminate]); [|easy].
  change (deep_equal x y = true ↔ Some x = Some y). rewrite deep_equal_spec.
  split; [now intros -> | now intros [= ->]].
Qed.

#[export] Instance DeepEqualSpec_gmap {V} `{DeepEqualSpec V} :
  DeepEqualSpec (gmap string V).
Proof.
  intros m1 m2. unfold deep_equal, DeepEqual_gmap.
  rewrite andb_true_iff, Nat.eqb_eq, forallb_forall. split.
  - intros [Hsize Hall]. apply map_subseteq_size_eq; [|lia].
    apply map_subseteq_spec. intros k v Hkv.
    apply elem_of_map_to_list, list_elem_of_In in Hkv.
    specialize (Hall _ Hkv). cbn in Hall.
    destruct (m2 !! k) as [v2|]; [|discriminate].
    change (deep_equal v v2 = true) in Hall.
    apply (proj1 (deep_equal_spec v v2)) in Hall. now subst.
  - intros ->. split; [reflexivity|]. intros [k v] Hkv.
    apply list_elem_of_In, elem_of_map_to_list in Hkv. cbn. rewrite Hkv.
    change (deep_equal v v = true). now apply (proj2 (deep_equal_spec v v)).
Qed.

(** A struct: deep equality of every field. *)
Ltac record_deep_equal_spec inst :=
  let x := fresh "x" in
  let y := fresh "y" in
  let H := fresh "H" in
  intros x y; unfold deep_equal at 1; unfold inst; cbv zeta;
  rewrite ?andb_true_iff, ?deep_equal_spec;
  destruct x, y; cbn; split;
  [ intros H; decompose [and] H; clear H; subst; reflexivity
  | intros H; injection H as ?; subst; repeat split ].

#[export] Instance DeepEqualSpec_TypeMeta : DeepEqualSpec metav1.TypeMeta.
Proof. record_deep_equal_spec DeepEqual_TypeMeta. Qed.

#[export] Instance DeepEqualSpec_OwnerReference :
  DeepEqualSpec metav1.OwnerReference.t.
Proof. record_deep_equal_spec DeepEqual_OwnerReference. Qed.

#[export] Instance DeepEqualSpec_ManagedFieldsEntry :
  DeepEqualSpec metav1.ManagedFieldsEntry.t.
Proof. record_deep_equal_spec DeepEqual_ManagedFieldsEntry. Qed.

#[export] Instance DeepEqualSpec_ObjectMeta : DeepEqualSpec metav1.ObjectMeta.
Proof. record_deep_equal_spec DeepEqual_ObjectMeta. Qed.

#[export] Instance DeepEqualSpec_SecretReference :
  DeepEqualSpec corev1.SecretReference.
Proof. record_deep_equal_spec DeepEqual_SecretReference. Qed.

#[export] Instance DeepEqualSpec_APIEndpoint : DeepEqualSpec clusterv1.APIEndpoint.
Proof. record_deep_equal_spec DeepEqual_APIEndpoint. Qed.

#[export] Instance DeepEqualSpec_FailureDomainSpec :
  DeepEqualSpec clusterv1.FailureDomainSpec.
Proof. record_deep_equal_spec DeepEqual_FailureDomainSpec. Qed.

#[export] Instance DeepEqualSpec_Network : DeepEqualSpec infrav1.Network.
Proof. record_deep_equal_spec DeepEqual_Network. Qed.

#[export] Instance DeepEqualSpec_CloudStackZoneSpec :
  DeepEqualSpec infrav1.CloudStackZoneSpec.t.
Proof. record_deep_equal_spec DeepEqual_CloudStackZoneSpec. Qed.

#[export] Instance DeepEqualSpec_CloudStackFailureDomainSpec :
  DeepEqualSpec infrav1.CloudStackFailureDomainSpec.t.
Proof. record_deep_equal_spec DeepEqual_CloudStackFailureDomainSpec. Qed.

#[export] Instance DeepEqualSpec_CloudStackClusterSpec :
  DeepEqualSpec infrav1.CloudStackClusterSpec.
Proof. record_deep_equal_spec DeepEqual_CloudStackClusterSpec. Qed.

#[export] Instance DeepEqualSpec_CloudStackClusterStatus :
  DeepEqualSpec infrav1.CloudStackClusterStatus.t.
Proof. record_deep_equal_spec DeepEqual_CloudStackClusterStatus. Qed.

#[export] Instance DeepEqualSpec_CloudStackCluster :
  DeepEqualSpec infrav1.CloudStackCluster.t.
Proof. record_deep_equal_spec DeepEqual_CloudStackCluster. Qed.

(** ** The event predicates *)

Section Predicates.

Implicit Types (old new : infrav1.CloudStackCluster.t).

Lemma ignoreUpdates_eq_iff old new :
  ignoreUpdates old = ignoreUpdates new ↔ differOnlyInIgnored old new.
Proof.
  destruct old as [tmo [] spo sto], new as [tmn [] spn stn].
  unfold ignoreUpdates, differOnlyInIgnored. cbn. split.
  - intros H. injection H as ?. subst. repeat split.
  - intros H. decompose [and] H. clear H. subst. reflexivity.
Qed.

(** The update filter on CloudStackCluster objects fires exactly when the
    two versions differ outside of what it clears. *)
Lemma clusterEventFilter_update old new :
  predicate.Update clusterEventFilter (event.mkUpdateEvent old new) = false
  ↔ differOnlyInIgnored old new.
Proof.
  rewrite <- ignoreUpdates_eq_iff. cbn.
  rewrite negb_false_iff. apply deep_equal_spec.
Qed.

(** C7.  The update filter returns false whenever the old and the new
    version differ only in resource version, finalizers, managed fields or
    status, and returns true whenever their [Spec.FailureDomains] differ. *)
Theorem C7_update_filter :
  ∀ old new,
    let fires :=
      predicate.Update clusterEventFilter (event.mkUpdateEvent old new) in
    (differOnlyInIgnored old new → fires = false)
    ∧ (infrav1.FailureDomains (infrav1.CloudStackCluster.Spec old)
       ≠ infrav1.FailureDomains (infrav1.CloudStackCluster.Spec new) →
       fires = true)
    ∧ (elems (infrav1.FailureDomains (infrav1.CloudStackCluster.Spec old))
       ≠ elems (infrav1.FailureDomains (infrav1.CloudStackCluster.Spec new)) →
       fires = true).
Proof.
  intros old new fires.
  assert (Hspec :
    infrav1.FailureDomains (infrav1.CloudStackCluster.Spec old)
    ≠ infrav1.FailureDomains (infrav1.CloudStackCluster.Spec new) →
    fires = true).
  { intros Hne. apply not_false_iff_true. intros Hf.
    apply clusterEventFilter_update in Hf. destruct Hf as (_ & Hs & _).
    apply Hne. now rewrite Hs. }
  split; [apply clusterEventFilter_update|]. split; [exact Hspec|].
  intros Hne. apply Hspec. intros Heq. apply Hne. now rewrite Heq.
Qed.

(** C8.  The update predicate of the watch on the owning CAPI cluster
    returns true if and only if the old version is paused and the new one
    is not, so it returns false for a change from unpaused to paused; its
    create and delete predicates return false on every event. *)
Theorem C8_owner_watch_predicate :
  ∀ (old new : clusterv1.Cluster.t),
    let pausedOld := clusterv1.Paused (clusterv1.Cluster.Spec old) in
    let pausedNew := clusterv1.Paused (clusterv1.Cluster.Spec new) in
    (predicate.Update capiClusterWatchPredicate (event.mkUpdateEvent old new)
     = true
     ↔ pausedOld = true ∧ pausedNew = false)
    ∧ (pausedOld = false → pausedNew = true →
       predicate.Update capiClusterWatchPredicate (event.mkUpdateEvent old new)
       = false)
    ∧ (∀ e, predicate.Create capiClusterWatchPredicate e = false)
    ∧ (∀ e, predicate.Delete capiClusterWatchPredicate e = false).
Proof.
  intros old new pausedOld pausedNew. cbn. fold pausedOld pausedNew.
  split; [|split; [|split]].
  - rewrite andb_true_iff, negb_true_iff. reflexivity.
  - intros -> ->. reflexivity.
  - reflexivity.
  - reflexivity.
Qed.

End Predicates.

(** * Concrete runs *)

Section Runs.

Import Examples.

(** Why the declared names have to be pairwise different, as section 3 of
    the specification asks: with "pool1" declared twice the run below
    completes although the fetched dependents ("old-demo" and "pool1-demo")
    are not the declared ones; only their number is the same. *)
Lemma duplicate_names_run :
  let r := exDuplicateNames in
  let r3 := (RunReconciliationStages (stagesBeforeVerify r) r).2 in
  let '(res, r') := Reconcile r in
  infrav1.CloudStackClusterStatus.Ready (subjectStatus r) = false
  ∧ res = Continue
  ∧ infrav1.CloudStackClusterStatus.Ready (subjectStatus r') = true
  ∧ fetchedNames r' = ["old-demo"; "pool1-demo"]
  ∧ declaredNames r = ["pool1-demo"; "pool1-demo"]
  ∧ ¬ sameNames (fetchedNames r') (declaredNames r)
  ∧ fetchedNames r3 = fetchedNames r'
  ∧ VerifyFailureDomainCRDs r3 = (Continue, r3)
  ∧ SetReady r3 = (Continue, r').
Proof.
  cbv zeta. destruct (Reconcile exDuplicateNames) as [res r'] eqn:E.
  vm_compute in E. injection E as <- <-.
  assert (Hfetched : fetchedNames
            (Reconcile exDuplicateNames).2 = ["old-demo"; "pool1-demo"])
    by (vm_compute; reflexivity).
  assert (Hdeclared : declaredNames exDuplicateNames
                      = ["pool1-demo"; "pool1-demo"])
    by (vm_compute; reflexivity).
  split; [reflexivity|]. split; [reflexivity|]. split; [reflexivity|].
  split; [exact Hfetched|]. split; [exact Hdeclared|].
  split; [|split; [|split]]; try (vm_compute; reflexivity).
  rewrite Hdeclared. change (fetchedNames _) with (fetchedNames
    (Reconcile exDuplicateNames).2). rewrite Hfetched.
  intros H. specialize (H "old-demo"). destruct H as [H _].
  assert (Hin : "old-demo" ∈ ["pool1-demo"; "pool1-demo"])
    by (apply H; apply list_elem_of_here).
  apply list_elem_of_In in Hin. simpl in Hin.
  destruct Hin as [Hin|[Hin|[]]]; discriminate.
Qed.



Lemma C2_witness :
  observable (exDeleting []) ≠ []
  ∧ subjectMeta (ReconcileDelete (exDeleting [])).2 = subjectMeta (exDeleting []).
Proof.
  assert (Hobs : observable (exDeleting []) ≠ []) by (vm_compute; discriminate).
  split; [exact Hobs|].
  pose proof (C2_finalizer_kept_while_dependents_exist (exDeleting [])) as H.
  destruct (ReconcileDelete (exDeleting [])) as [res r'].
  destruct H as (H & _). exact (H Hobs).
Defined.

Lemma exDeleting_wellFormed faults : wellFormed (K8sClient (exDeleting faults)).
Proof.
  unfold wellFormed. cbn. apply NoDup_cons. split.
  - intros H. apply list_elem_of_In in H. simpl in H.
    destruct H as [H|[]]. discriminate.
  - apply NoDup_singleton.
Qed.

Lemma C3_witness :
  (ReconcileDelete (exDeleting [])).1
  = Requeue "Child FailureDomains still present, requeueing."
  ∧ (ReconcileDelete
       (exDeleting [None; None; Some (client.StoreUnavailable "timeout")])).1
    = Error (client.StoreUnavailable "timeout")
  ∧ (ReconcileDelete exDrained).1 = Continue
  ∧ metav1.Finalizers (subjectMeta (ReconcileDelete exDrained).2)
    = Some ["other"].
Proof.
  split; [|split].
  - pose proof (C3_delete_then_requeue (exDeleting [])) as H. cbv zeta in H.
    destruct (ReconcileDelete (exDeleting [])) as [res r'].
    destruct H as (H & _). apply H.
    + vm_compute. discriminate.
    + apply exDeleting_wellFormed.
    + unfold letsThrough. cbn. constructor.
  - set (faults := [None; None; Some (client.StoreUnavailable "timeout")]).
    pose proof (C3_delete_then_requeue (exDeleting faults)) as H. cbv zeta in H.
    destruct (ReconcileDelete (exDeleting faults)) as [res r'].
    destruct H as (_ & H & _).
    apply (H 1%nat (client.StoreUnavailable "timeout") []).
    + apply exDeleting_wellFormed.
    + vm_compute. lia.
    + reflexivity.
  - pose proof (C3_delete_then_requeue exDrained) as H. cbv zeta in H.
    destruct (ReconcileDelete exDrained) as [res r'].
    destruct H as (_ & _ & _ & H).
    destruct H as (H1 & H2 & _); [reflexivity | reflexivity |].
    split; [exact H1|]. cbn [snd]. rewrite H2. reflexivity.
Defined.

Lemma C4_witness :
  VerifyFailureDomainCRDs exCountMismatch
  = (Requeue "Expected 3 FailureDomains, but found 2", exCountMismatch).
Proof.
  pose proof (C4_verify_requeues exCountMismatch) as H. cbv zeta in H.
  destruct H as (_ & H & _). apply H; reflexivity.
Defined.

Lemma C5_witness :
  infrav1.CloudStackFailureDomainSpec.Name
    (addClusterNameSuffix "demo" (exSpec "pool1")) = "pool1-demo"
  ∧ addClusterNameSuffix "demo" (exSpec "pool1-demo") = exSpec "pool1-demo".
Proof.
  split.
  - destruct (C5_normalize_name "demo" (exSpec "pool1")) as (H & _).
    rewrite H; [reflexivity|]. intros Hp. apply HasSuffix_spec in Hp.
    vm_compute in Hp. discriminate.
  - destruct (C5_normalize_name "demo" (exSpec "pool1-demo")) as (_ & H & _).
    apply H. now exists "pool1".
Defined.

Lemma C6_witness :
  ∃ m,
    infrav1.CloudStackClusterStatus.FailureDomains
      (subjectStatus (SetFailureDomainsStatusMap exTwoPools).2) = Some m
    ∧ m !! "pool1-demo" = Some controlPlaneEntry
    ∧ m !! "pool2-demo" = Some controlPlaneEntry
    ∧ size m = 2%nat.
Proof.
  pose proof (C6_status_map_rebuilt exTwoPools) as H.
  destruct (SetFailureDomainsStatusMap exTwoPools) as [res r'].
  destruct H as (_ & (m & Hm & Hin & _ & Hsize) & _).
  exists m. split; [exact Hm|]. split; [|split].
  - apply (Hin (exSpec "pool1")). apply list_elem_of_here.
  - apply (Hin (exSpec "pool2-demo")).
    apply list_elem_of_further, list_elem_of_here.
  - apply Hsize. vm_compute. apply NoDup_cons. split.
    + intros H. apply list_elem_of_In in H. simpl in H.
      destruct H as [H|[]]. discriminate.
    + apply NoDup_singleton.
Defined.

Lemma C7_witness :
  predicate.Update clusterEventFilter (event.mkUpdateEvent exOld exNewStatus)
  = false
  ∧ predicate.Update clusterEventFilter (event.mkUpdateEvent exOld exNewSpec)
    = true.
Proof.
  split.
  - destruct (C7_update_filter exOld exNewStatus) as (H & _).
    apply H. repeat split.
  - destruct (C7_update_filter exOld exNewSpec) as (_ & H & _).
    apply H. discriminate.
Defined.

Lemma C8_witness :
  predicate.Update capiClusterWatchPredicate
    (event.mkUpdateEvent (exOwner true) (exOwner false)) = true
  ∧ predicate.Update capiClusterWatchPredicate
      (event.mkUpdateEvent (exOwner false) (exOwner true)) = false.
Proof.
  split.
  - destruct (C8_owner_watch_predicate (exOwner true) (exOwner false))
      as (H & _).
    apply H. split; reflexivity.
  - destruct (C8_owner_watch_predicate (exOwner false) (exOwner true))
      as (_ & H & _).
    apply H; reflexivity.
Defined.

Lemma C9_witness :
  let '(res, r') := Reconcile exConverged in
  res = Continue
  ∧ infrav1.CloudStackClusterStatus.Ready (subjectStatus r') = true
  ∧ infrav1.ClusterFinalizer ∈ elems (metav1.Finalizers (subjectMeta r')).
Proof.
  pose proof (C9_ready_with_finalizer exConverged) as (_ & H).
  destruct (Reconcile exConverged) as [res r'] eqn:E.
  assert (Hres : res = Continue) by (vm_compute in E; now injection E as <- _).
  split; [exact Hres|]. exact (H Hres).
Defined.

End Runs.

(** * Further properties *)

(** ** [SetReady] *)

Section SetReadyFacts.

Implicit Types (r : Runner).

Lemma existsb_eqb_elem (x : string) (l : list string) :
  existsb (String.eqb x) l = true ↔ x ∈ l.
Proof.
  rewrite existsb_exists, list_elem_of_In. split.
  - intros (y & Hin & Hy). apply String.eqb_eq in Hy. now subst.
  - intros Hin. exists x. split; [exact Hin | apply String.eqb_refl].
Qed.

(** The finalizers [controllerutil.AddFinalizer] leaves: those that were
    there, in order, and the new one at the end unless it was listed. *)
Lemma AddFinalizer_elems (finalizer : string) (o : metav1.ObjectMeta) :
  elems (metav1.Finalizers (controllerutil.AddFinalizer finalizer o))
  = if decide (finalizer ∈ elems (metav1.Finalizers o))
    then elems (metav1.Finalizers o)
    else elems (metav1.Finalizers o) ++ [finalizer].
Proof.
  unfold controllerutil.AddFinalizer.
  destruct (existsb _ _) eqn:E.
  - apply existsb_eqb_elem in E. now rewrite decide_True.
  - rewrite decide_False; [reflexivity|].
    intros Hin. apply existsb_eqb_elem in Hin. congruence.
Qed.

Lemma AddFinalizer_idem (finalizer : string) (o : metav1.ObjectMeta) :
  controllerutil.AddFinalizer finalizer
    (controllerutil.AddFinalizer finalizer o)
  = controllerutil.AddFinalizer finalizer o.
Proof.
  unfold controllerutil.AddFinalizer at 1.
  replace (existsb _ _) with true; [reflexivity|].
  symmetry. apply existsb_eqb_elem. apply AddFinalizer_elem.
Qed.

(** X1.  [SetReady] is idempotent: a second run changes nothing, so the
    cluster finalizer is never listed twice by it.  The finalizers that were
    there stay in their order, the cluster finalizer is appended only when
    it was absent, and the spec, the status map, the fetched dependents, the
    client and the log are left as they were. *)
Theorem X1_SetReady_idempotent :
  ∀ r,
    let r' := (SetReady r).2 in
    SetReady r' = SetReady r
    ∧ finalizersOf r'
      = (if decide (infrav1.ClusterFinalizer ∈ finalizersOf r)
         then finalizersOf r
         else finalizersOf r ++ [infrav1.ClusterFinalizer])
    ∧ specFailureDomains r' = specFailureDomains r
    ∧ statusMap r' = statusMap r
    ∧ FailureDomains r' = FailureDomains r
    ∧ K8sClient r' = K8sClient r
    ∧ Log r' = Log r.
Proof.
  intros r r'. subst r'. split; [|split].
  - unfold SetReady. cbn. rewrite AddFinalizer_idem. reflexivity.
  - unfold finalizersOf. cbn. apply AddFinalizer_elems.
  - repeat split.
Qed.

End SetReadyFacts.

(** ** The status map *)

Section StatusMapFacts.

Implicit Types (r : Runner) (fdSpec : infrav1.CloudStackFailureDomainSpec.t).

Lemma statusMap_SetFailureDomainsStatusMap r :
  statusMap (SetFailureDomainsStatusMap r).2
  = Some (insertAll (capiClusterName r) (elems (specFailureDomains r)) ∅).
Proof. now rewrite SetFailureDomainsStatusMap_eq. Qed.

(** X2.  The rebuilt status map depends on the declared specs only through
    the set of their normalized names: two runners whose declared specs
    have the same normalized names, in whatever order, with whatever
    repetitions, suffixed already or not, end with the same status map. *)
Theorem X2_status_map_of_name_set :
  ∀ r1 r2,
    (∀ k, k ∈ declaredNames r1 ↔ k ∈ declaredNames r2) →
    statusMap (SetFailureDomainsStatusMap r1).2
    = statusMap (SetFailureDomainsStatusMap r2).2.
Proof.
  intros r1 r2 Hsame. rewrite !statusMap_SetFailureDomainsStatusMap.
  f_equal. apply map_eq. intros k. rewrite !insertAll_lookup.
  unfold declaredNames in Hsame. specialize (Hsame k).
  repeat case_decide; tauto.
Qed.

(** X3.  Every key of the rebuilt status map ends with ["-"] followed by
    the name of the owning cluster. *)
Theorem X3_status_map_keys_suffixed :
  ∀ r m k v,
    statusMap (SetFailureDomainsStatusMap r).2 = Some m →
    m !! k = Some v →
    ∃ p, k = p +:+ clusterSuffix (capiClusterName r).
Proof.
  intros r m k v Hm Hk. rewrite statusMap_SetFailureDomainsStatusMap in Hm.
  injection Hm as <-. rewrite insertAll_lookup in Hk.
  case_decide as Hin; [|now rewrite lookup_empty in Hk].
  apply list_elem_of_fmap in Hin as (s & -> & _).
  apply HasSuffix_spec. apply addClusterNameSuffix_has_suffix.
Qed.

Lemma size_list_to_set_le (l : list string) :
  (size (list_to_set l : gset string) ≤ length l)%nat
  ∧ (size (list_to_set l : gset string) = length l ↔ NoDup l).
Proof.
  induction l as [|x l [IHle IHeq]]; cbn [length].
  - rewrite list_to_set_nil, size_empty. split; [lia|].
    split; [intros _; constructor | reflexivity].
  - rewrite list_to_set_cons, NoDup_cons.
    destruct (decide (x ∈ l)) as [Hin|Hnin].
    + replace ({[x]} ∪ list_to_set l : gset string) with (list_to_set l : gset string).
      * split; [lia|]. split; [lia | tauto].
      * apply set_eq. intros y.
        rewrite elem_of_union, elem_of_singleton, elem_of_list_to_set.
        split; [tauto | intros [->|?]; assumption].
    + rewrite size_union.
      * rewrite size_singleton. split; [lia|]. rewrite <- IHeq.
        split; [intros ?; split; [assumption | lia] | intros [_ ?]; lia].
      * intros y Hy1 Hy2. apply elem_of_singleton in Hy1. subst y.
        now apply elem_of_list_to_set in Hy2.
Qed.

(** X4.  The rebuilt status map never has more entries than there are
    declared specs, and it has exactly as many if and only if the
    normalized names of the declared specs are pairwise different. *)
Theorem X4_status_map_size :
  ∀ r m,
    statusMap (SetFailureDomainsStatusMap r).2 = Some m →
    (size m ≤ length (elems (specFailureDomains r)))%nat
    ∧ (size m = length (elems (specFailureDomains r))
       ↔ NoDup (declaredNames r)).
Proof.
  intros r m Hm. rewrite statusMap_SetFailureDomainsStatusMap in Hm.
  injection Hm as <-.
  rewrite <- size_dom, insertAll_dom, dom_empty_L, union_empty_r_L.
  unfold declaredNames.
  rewrite <- (length_fmap (normalizedName (capiClusterName r))).
  apply size_list_to_set_le.
Qed.

Lemma string_app_inv_tail (a b s : string) : a +:+ s = b +:+ s → a = b.
Proof.
  revert b; induction a as [|c a IH]; intros [|d b] H.
  - reflexivity.
  - change (s = String d (b +:+ s)) in H.
    apply (f_equal String.length) in H. cbn [String.length] in H.
    rewrite string_length_app in H. lia.
  - change (String c (a +:+ s) = s) in H.
    apply (f_equal String.length) in H. cbn [String.length] in H.
    rewrite string_length_app in H. lia.
  - rewrite !string_app_cons in H. injection H as -> H. f_equal. now apply IH.
Qed.

(** X5.  Two declared specs get the same normalized name exactly when
    their names are equal, or one name does not end with the suffix and the
    other is that name followed by the suffix. *)
Theorem X5_normalized_name_collision :
  ∀ clusterName fdSpec1 fdSpec2,
    let n1 := infrav1.CloudStackFailureDomainSpec.Name fdSpec1 in
    let n2 := infrav1.CloudStackFailureDomainSpec.Name fdSpec2 in
    let suffix := clusterSuffix clusterName in
    normalizedName clusterName fdSpec1 = normalizedName clusterName fdSpec2
    ↔ n1 = n2
      ∨ (strings.HasSuffix n2 suffix = false ∧ n1 = n2 +:+ suffix)
      ∨ (strings.HasSuffix n1 suffix = false ∧ n2 = n1 +:+ suffix).
Proof.
  intros clusterName s1 s2 n1 n2 suffix. unfold normalizedName.
  rewrite !addClusterNameSuffix_name. fold n1 n2. fold (clusterSuffix clusterName).
  fold suffix.
  destruct (strings.HasSuffix n1 suffix) eqn:E1,
           (strings.HasSuffix n2 suffix) eqn:E2.
  - split; [auto|]. intros [H|[[H _]|[H _]]]; [exact H | discriminate..].
  - split; [intros ->; auto|].
    intros [H|[[_ H]|[H _]]]; [|exact H | discriminate].
    subst n2. congruence.
  - split; [intros <-; auto|].
    intros [H|[[H _]|[_ H]]]; [| discriminate | now symmetry].
    rewrite H in E1. congruence.
  - split.
    + intros H. left. now apply string_app_inv_tail in H.
    + intros [H|[[_ H]|[_ H]]].
      * now rewrite H.
      * rewrite H, HasSuffix_app in E1. discriminate.
      * rewrite H, HasSuffix_app in E2. discriminate.
Qed.

End StatusMapFacts.

(** ** The Normal pipeline, once more *)

Section PipelineFacts.

Implicit Types (r : Runner).

(** The create loop changes nothing but the client. *)
Lemma createEach_frame l r :
  (createEach l r).2 = setK8sClient (K8sClient (createEach l r).2) r.
Proof.
  revert r; induction l as [|s l IH]; intros r; simpl.
  - now destruct r.
  - destruct (client.Create _ _) as [[[| | |msg]|] c]; simpl;
      try reflexivity; rewrite IH at 1; reflexivity.
Qed.

Lemma GetFailureDomains_subject r :
  ReconciliationSubject (GetFailureDomains r).2 = ReconciliationSubject r.
Proof. destruct (GetFailureDomains_cases r) as [[e ->] | ->]; reflexivity. Qed.

(** What [SetReady] makes of the subject depends on the subject only. *)
Lemma SetReady_subject r1 r2 :
  ReconciliationSubject r1 = ReconciliationSubject r2 →
  ReconciliationSubject (SetReady r1).2 = ReconciliationSubject (SetReady r2).2.
Proof.
  destruct r1, r2. cbn. intros ->. reflexivity.
Qed.

(** The subject a run of the Normal pipeline leaves: the one with the
    rebuilt status map, and, when the run completed, [SetReady] applied to
    it. *)
Lemma Reconcile_subject r :
  let r1 := (SetFailureDomainsStatusMap r).2 in
  ReconciliationSubject (Reconcile r).2 = ReconciliationSubject r1
  ∨ ((Reconcile r).1 = Continue
     ∧ ReconciliationSubject (Reconcile r).2
       = ReconciliationSubject (SetReady r1).2).
Proof.
  rewrite Reconcile_eq. cbv zeta.
  set (r1 := (SetFailureDomainsStatusMap r).2).
  pose proof (createEach_frame (elems (specFailureDomains r)) r1) as F2.
  unfold CreateFailureDomains.
  destruct (createEach _ r1) as [res2 r2]. cbn [snd] in F2.
  assert (S2 : ReconciliationSubject r2 = ReconciliationSubject r1)
    by (rewrite F2; reflexivity).
  destruct (ShouldReturn res2); [now left|].
  pose proof (GetFailureDomains_subject r2) as S3.
  destruct (GetFailureDomains r2) as [res3 r3]. cbn [snd] in S3.
  destruct (ShouldReturn res3); [left; exact (eq_trans S3 S2)|].
  pose proof (VerifyFailureDomainCRDs_state r3) as S4.
  destruct (VerifyFailureDomainCRDs r3) as [res4 r4]. cbn [snd] in S4. subst r4.
  destruct (ShouldReturn res4); [left; exact (eq_trans S3 S2)|].
  right. split; [reflexivity|]. apply SetReady_subject. exact (eq_trans S3 S2).
Qed.

(** X6.  Whatever a run of the Normal pipeline returns, a completion, a
    requeue or an error of a later stage, it leaves the status map rebuilt
    from the declared specs: the map [SetFailureDomainsStatusMap] alone
    would leave.  The declared specs are as before the run. *)
Theorem X6_Reconcile_always_rebuilds_status_map :
  ∀ r,
    statusMap (Reconcile r).2 = statusMap (SetFailureDomainsStatusMap r).2
    ∧ statusMap (Reconcile r).2
      = Some (insertAll (capiClusterName r) (elems (specFailureDomains r)) ∅)
    ∧ specFailureDomains (Reconcile r).2 = specFailureDomains r.
Proof.
  intros r.
  assert (H : statusMap (Reconcile r).2
              = statusMap (SetFailureDomainsStatusMap r).2
              ∧ specFailureDomains (Reconcile r).2
                = specFailureDomains (SetFailureDomainsStatusMap r).2).
  { unfold statusMap, subjectStatus, specFailureDomains.
    destruct (Reconcile_subject r) as [-> | [_ ->]]; [now split|].
    destruct (SetFailureDomainsStatusMap r) as [res [c lg capi fds s]].
    now split. }
  destruct H as [Hm Hs]. split; [exact Hm|]. split.
  - rewrite Hm. apply statusMap_SetFailureDomainsStatusMap.
  - rewrite Hs, SetFailureDomainsStatusMap_eq. reflexivity.
Qed.

(** X7.  A cluster that declares no failure domain (a nil or an empty
    list) and has no dependent in the store becomes ready in one run, when
    the fetch reaches the store: the run completes, [Status.Ready] is true,
    the status map is the empty map, the finalizer is listed, and the only
    request sent is the fetch. *)
Theorem X7_no_failure_domains_ready_at_once :
  ∀ r,
    elems (specFailureDomains r) = [] →
    observable r = [] →
    firstCallThrough r →
    let '(res, r') := Reconcile r in
    res = Continue
    ∧ infrav1.CloudStackClusterStatus.Ready (subjectStatus r') = true
    ∧ statusMap r' = Some ∅
    ∧ infrav1.ClusterFinalizer ∈ finalizersOf r'
    ∧ client.requests (K8sClient r')
      = client.requests (K8sClient r)
        ++ [client.ListReq (metav1.Namespace (subjectMeta r))
              (metav1.Name (subjectMeta r))].
Proof.
  intros r Hspec Hobs Hcall.
  pose proof (Reconcile_eq r) as E. cbv zeta in E.
  unfold CreateFailureDomains in E. rewrite Hspec in E.
  rewrite SetFailureDomainsStatusMap_eq in E. rewrite Hspec in E.
  cbn [snd createEach ShouldReturn] in E.
  unfold GetFailureDomains, client.List in E. rewrite call_eq in E.
  cbn [K8sClient setSubjectStatus setSubject subjectMeta ReconciliationSubject
       infrav1.CloudStackCluster.ObjectMeta] in E.
  unfold firstCallThrough in Hcall. rewrite Hcall in E.
  cbn [client.objects] in E.
  unfold observable, subjectMeta in Hobs. rewrite Hobs in E.
  cbn [ShouldReturn] in E.
  unfold VerifyFailureDomainCRDs in E.
  unfold len, specFailureDomains in E, Hspec.
  cbn [ReconciliationSubject setItems setK8sClient setSubjectStatus setSubject
       infrav1.CloudStackCluster.Spec FailureDomains infrav1.Items] in E.
  rewrite Hspec in E. cbn [length Z.of_nat Z.eqb negb verifyEach ShouldReturn] in E.
  rewrite E. unfold SetReady.
  split; [reflexivity|]. split; [reflexivity|]. split; [reflexivity|].
  split; [|reflexivity].
  unfold finalizersOf. cbn. apply AddFinalizer_elem.
Qed.

(** What the controller writes to the subject is what the filter ignores. *)
Lemma SetFailureDomainsStatusMap_ignored r :
  differOnlyInIgnored (ReconciliationSubject r)
    (ReconciliationSubject (SetFailureDomainsStatusMap r).2).
Proof. rewrite SetFailureDomainsStatusMap_eq. repeat split. Qed.

Lemma SetReady_ignored r :
  differOnlyInIgnored (ReconciliationSubject r)
    (ReconciliationSubject (SetReady r).2).
Proof.
  unfold SetReady, differOnlyInIgnored. cbn.
  unfold controllerutil.AddFinalizer.
  destruct (existsb _ _); repeat split.
Qed.

Lemma differOnlyInIgnored_trans (a b c : infrav1.CloudStackCluster.t) :
  differOnlyInIgnored a b → differOnlyInIgnored b c → differOnlyInIgnored a c.
Proof.
  rewrite <- !ignoreUpdates_eq_iff. congruence.
Qed.

Lemma ReconcileDelete_ignored r :
  differOnlyInIgnored (ReconciliationSubject r)
    (ReconciliationSubject (ReconcileDelete r).2).
Proof.
  rewrite ReconcileDelete_eq. cbv zeta.
  destruct (default None (head (client.faults (K8sClient r)))) as [e|];
    [repeat split|].
  destruct (List.filter _ _) as [|fd l]; [repeat split|].
  set (r1 := setItems _ _).
  pose proof (deleteEach_frame (fd :: l) r1) as F.
  destruct (deleteEach (fd :: l) r1) as [[err|] r2]; cbn [snd] in *;
    rewrite F; repeat split.
Qed.

(** X8.  The controller's own writes do not pass its update filter: for
    the subject before and after a run of the Normal pipeline, and before
    and after a run of [ReconcileDelete], the filter returns false,
    whatever the run returned. *)
Theorem X8_own_writes_do_not_retrigger :
  ∀ r,
    updateFires (ReconciliationSubject r) (ReconciliationSubject (Reconcile r).2)
    = false
    ∧ updateFires (ReconciliationSubject r)
        (ReconciliationSubject (ReconcileDelete r).2)
      = false.
Proof.
  intros r. unfold updateFires. split; apply clusterEventFilter_update.
  - destruct (Reconcile_subject r) as [-> | [_ ->]].
    + apply SetFailureDomainsStatusMap_ignored.
    + eapply differOnlyInIgnored_trans;
        [apply SetFailureDomainsStatusMap_ignored | apply SetReady_ignored].
  - apply ReconcileDelete_ignored.
Qed.

End PipelineFacts.

(** ** The event predicates, once more *)

Section PredicateFacts.

Implicit Types (a b c old new : infrav1.CloudStackCluster.t).

Lemma updateFires_false_iff a b :
  updateFires a b = false ↔ ignoreUpdates a = ignoreUpdates b.
Proof.
  unfold updateFires. rewrite clusterEventFilter_update.
  symmetry. apply ignoreUpdates_eq_iff.
Qed.

Lemma updateFires_true_iff a b :
  updateFires a b = true ↔ ignoreUpdates a ≠ ignoreUpdates b.
Proof.
  rewrite <- updateFires_false_iff. destruct (updateFires a b); split; congruence.
Qed.

(** X9.  The update filter on CloudStackCluster objects returns false if
    and only if the two versions agree on every field other than resource
    version, finalizers, managed fields and status.  So it is false on a
    version against itself, gives the same answer in both directions, and
    silence composes: when it is false from a first to a second and from
    the second to a third version, it is false from the first to the third.
    It returns true whenever the deletion timestamp, the labels, the
    annotations or any part of the spec differ. *)
Theorem X9_update_filter_characterised :
  ∀ a b c,
    (updateFires a b = false ↔ differOnlyInIgnored a b)
    ∧ updateFires a a = false
    ∧ updateFires a b = updateFires b a
    ∧ (updateFires a b = false → updateFires b c = false →
       updateFires a c = false)
    ∧ (metav1.DeletionTimestamp (infrav1.CloudStackCluster.ObjectMeta a)
       ≠ metav1.DeletionTimestamp (infrav1.CloudStackCluster.ObjectMeta b) →
       updateFires a b = true)
    ∧ (metav1.Labels (infrav1.CloudStackCluster.ObjectMeta a)
       ≠ metav1.Labels (infrav1.CloudStackCluster.ObjectMeta b) →
       updateFires a b = true)
    ∧ (metav1.Annotations (infrav1.CloudStackCluster.ObjectMeta a)
       ≠ metav1.Annotations (infrav1.CloudStackCluster.ObjectMeta b) →
       updateFires a b = true)
    ∧ (infrav1.CloudStackCluster.Spec a ≠ infrav1.CloudStackCluster.Spec b →
       updateFires a b = true).
Proof.
  intros a b c.
  assert (Hiff : updateFires a b = false ↔ differOnlyInIgnored a b)
    by apply clusterEventFilter_update.
  assert (Hfires : ¬ differOnlyInIgnored a b → updateFires a b = true).
  { intros Hn. apply not_false_iff_true. intros Hf. apply Hn, Hiff, Hf. }
  split; [exact Hiff|]. split; [now apply updateFires_false_iff|].
  split; [|split; [|split; [|split; [|split]]]].
  - destruct (updateFires a b) eqn:Eab, (updateFires b a) eqn:Eba;
      try reflexivity.
    + apply updateFires_false_iff in Eba. symmetry in Eba.
      apply updateFires_false_iff in Eba. congruence.
    + apply updateFires_false_iff in Eab. symmetry in Eab.
      apply updateFires_false_iff in Eab. congruence.
  - rewrite !updateFires_false_iff. congruence.
  - intros Hne. apply Hfires. unfold differOnlyInIgnored. cbv zeta. tauto.
  - intros Hne. apply Hfires. unfold differOnlyInIgnored. cbv zeta. tauto.
  - intros Hne. apply Hfires. unfold differOnlyInIgnored. cbv zeta. tauto.
  - intros Hne. apply Hfires. unfold differOnlyInIgnored. cbv zeta. tauto.
Qed.


End PredicateFacts.

(** ** Deletion, once more *)

Section DeletionFacts.

Implicit Types (r : Runner) (fd o : infrav1.CloudStackFailureDomain.t).

(** Whatever the store answers, the delete loop sends delete requests for
    a prefix of the items, adds no object to the store, and leaves every
    object whose key is none of the items'. *)
Lemma deleteEach_general items r :
  ∃ n,
    (n ≤ length items)%nat
    ∧ client.requests (K8sClient (deleteEach items r).2)
      = client.requests (K8sClient r) ++ (deleteReqOf <$> take n items)
    ∧ (∀ o, o ∈ client.objects (K8sClient (deleteEach items r).2) →
            o ∈ client.objects (K8sClient r))
    ∧ (∀ o, o ∈ client.objects (K8sClient r) →
            keyOf o ∉ keyOf <$> items →
            o ∈ client.objects (K8sClient (deleteEach items r).2)).
Proof.
  revert r; induction items as [|fd rest IH]; intros r.
  - exists 0%nat. cbn. rewrite app_nil_r. repeat split; auto.
  - cbn [deleteEach]. unfold client.Delete. rewrite call_eq.
    cbn [client.objects client.faults client.requests].
    destruct (default None (head (client.faults (K8sClient r)))) as [e|].
    { exists 1%nat. cbn. rewrite take_0. repeat split; auto. lia. }
    destruct (existsb _ _).
    2:{ exists 1%nat. cbn. rewrite take_0. repeat split; auto. lia. }
    set (c1 := client.mk _ _ _).
    destruct (IH (setK8sClient c1 r)) as (n & Hn & Hreq & Hsub & Hkeep).
    exists (S n). split; [cbn; lia|]. split; [|split].
    + rewrite Hreq. cbn. now rewrite <- app_assoc.
    + intros o Ho. apply Hsub in Ho. cbn in Ho.
      now apply elem_of_List_filter in Ho as [Ho _].
    + intros o Ho Hk. rewrite fmap_cons, not_elem_of_cons in Hk.
      destruct Hk as [Hk1 Hk2]. apply Hkeep; [|exact Hk2].
      cbn. apply elem_of_List_filter. split; [exact Ho|].
      apply negb_true_iff, not_true_iff_false. intros Hs.
      apply sameKey_spec in Hs. apply Hk1. exact Hs.
Qed.

Lemma NoDup_fmap_elem_inj {A B} (f : A → B) (l : list A) (x y : A) :
  NoDup (f <$> l) → x ∈ l → y ∈ l → f x = f y → x = y.
Proof.
  induction l as [|z l IH]; intros Hnd Hx Hy Hxy.
  - now apply elem_of_nil in Hx.
  - rewrite fmap_cons in Hnd. apply NoDup_cons in Hnd as [Hz Hnd].
    apply elem_of_cons in Hx as [->|Hx], Hy as [->|Hy]; auto.
    + exfalso. apply Hz. rewrite Hxy. apply list_elem_of_fmap. now exists y.
    + exfalso. apply Hz. rewrite <- Hxy. apply list_elem_of_fmap. now exists x.
Qed.

(** X10.  Whatever the store answers, [ReconcileDelete] sends one fetch
    followed by delete requests for a prefix of the fetched dependents, and
    nothing else: it never sends a create request and never adds an object
    to the store.  In a well-formed store every object that is not a
    dependent of the subject is still there after the run. *)
Theorem X10_ReconcileDelete_touches_own_dependents_only :
  ∀ r,
    let c := K8sClient r in
    let c' := K8sClient (ReconcileDelete r).2 in
    let ns := metav1.Namespace (subjectMeta r) in
    let name := metav1.Name (subjectMeta r) in
    (∃ n, client.requests c'
          = client.requests c
            ++ (client.ListReq ns name :: (deleteReqOf <$> take n (observable r))))
    ∧ (∀ o, o ∈ client.objects c' → o ∈ client.objects c)
    ∧ (wellFormed c →
       ∀ o, o ∈ client.objects c → client.ownedBy ns name o = false →
            o ∈ client.objects c').
Proof.
  intros r. cbv zeta. rewrite ReconcileDelete_eq. cbv zeta.
  fold (observable r).
  destruct (default None (head (client.faults (K8sClient r)))) as [e|].
  { cbn. split; [exists 0%nat; now rewrite take_0|]. split; auto. }
  destruct (observable r) as [|fd l] eqn:Hobs.
  { cbn. split; [exists 0%nat; reflexivity|]. split; auto. }
  set (r1 := setItems _ _).
  destruct (deleteEach_general (fd :: l) r1) as (n & _ & Hreq & Hsub & Hkeep).
  assert (Hc : K8sClient
                 (match deleteEach (fd :: l) r1 with
                  | (Some err, r2) => (Error err, r2)
                  | (None, r2) =>
                      (Requeue "Child FailureDomains still present, requeueing.", r2)
                  end).2
               = K8sClient (deleteEach (fd :: l) r1).2)
    by (now destruct (deleteEach (fd :: l) r1) as [[err|] r2]).
  rewrite Hc. split; [|split].
  - exists n. rewrite Hreq. cbn. now rewrite <- app_assoc.
  - intros o Ho. now apply Hsub in Ho.
  - intros Hwf o Ho Hown. apply Hkeep; [exact Ho|].
    intros Hk. apply list_elem_of_fmap in Hk as (x & Hkx & Hx).
    rewrite <- Hobs in Hx. apply elem_of_List_filter in Hx as [Hx Hxown].
    assert (o = x) by (eapply NoDup_fmap_elem_inj; eassumption).
    subst x. congruence.
Qed.

(** X11.  [ReconcileDelete] leaves the subject's type meta, spec and
    status as they were, [Status.Ready] included, and the owning cluster
    too; and of the finalizers it removes none but the cluster finalizer:
    the others stay, in their order. *)
Theorem X11_ReconcileDelete_frame :
  ∀ r,
    let s := ReconciliationSubject r in
    let r' := (ReconcileDelete r).2 in
    let s' := ReconciliationSubject r' in
    infrav1.CloudStackCluster.TypeMeta s' = infrav1.CloudStackCluster.TypeMeta s
    ∧ infrav1.CloudStackCluster.Spec s' = infrav1.CloudStackCluster.Spec s
    ∧ infrav1.CloudStackCluster.Status s' = infrav1.CloudStackCluster.Status s
    ∧ CAPICluster r' = CAPICluster r
    ∧ (finalizersOf r' = finalizersOf r
       ∨ finalizersOf r'
         = List.filter (λ e, negb (String.eqb e infrav1.ClusterFinalizer))
             (finalizersOf r))
    ∧ (∀ f, f ≠ infrav1.ClusterFinalizer →
            (f ∈ finalizersOf r' ↔ f ∈ finalizersOf r)).
Proof.
  intros r. cbv zeta.
  assert (H : (ReconcileDelete r).2
              = mkRunner (K8sClient (ReconcileDelete r).2)
                  (Log (ReconcileDelete r).2) (CAPICluster r)
                  (FailureDomains (ReconcileDelete r).2) (ReconciliationSubject r)
              ∨ (ReconcileDelete r).2
                = mkRunner (K8sClient (ReconcileDelete r).2)
                    (Log (ReconcileDelete r).2) (CAPICluster r)
                    (FailureDomains (ReconcileDelete r).2)
                    (ReconciliationSubject
                       (setSubjectMeta
                          (controllerutil.RemoveFinalizer infrav1.ClusterFinalizer
                             (subjectMeta r)) r))).
  { rewrite ReconcileDelete_eq. cbv zeta.
    destruct (default None (head (client.faults (K8sClient r)))) as [e|];
      [now left|].
    destruct (List.filter _ _) as [|fd l]; [now right|].
    set (r1 := setItems _ _).
    pose proof (deleteEach_frame (fd :: l) r1) as F.
    destruct (deleteEach (fd :: l) r1) as [[err|] r2]; cbn [snd] in *;
      rewrite F; now left. }
  destruct H as [-> | ->]; cbn.
  - repeat split; auto.
  - split; [reflexivity|]. split; [reflexivity|]. split; [reflexivity|].
    split; [reflexivity|].
    unfold finalizersOf, subjectMeta. cbn.
    destruct (metav1.Finalizers _) as [l|]; cbn.
    + split; [now right|]. intros f Hf. rewrite elem_of_List_filter.
      rewrite negb_true_iff, String.eqb_neq. tauto.
    + split; [now left|]. tauto.
Qed.

End DeletionFacts.

(** ** Runs that follow one another *)

Section Sequences.

Implicit Types (r : Runner) (fd o : infrav1.CloudStackFailureDomain.t).

Lemma letsThrough_last n fs :
  letsThrough (S n) fs →
  letsThrough n fs ∧ default None (head (drop n fs)) = None.
Proof.
  unfold letsThrough. replace (S n) with (n + 1)%nat by lia.
  rewrite <- take_take_drop, Forall_app. intros [Hn H1]. split; [exact Hn|].
  destruct (drop n fs) as [|f fs']; [reflexivity|].
  cbn in H1. now apply Forall_cons in H1 as [-> _].
Qed.

Lemma elems_RemoveFinalizer (finalizer : string) (o : metav1.ObjectMeta) :
  elems (metav1.Finalizers (controllerutil.RemoveFinalizer finalizer o))
  = List.filter (λ e, negb (String.eqb e finalizer)) (elems (metav1.Finalizers o)).
Proof.
  unfold controllerutil.RemoveFinalizer. cbn.
  now destruct (metav1.Finalizers o).
Qed.

Lemma List_filter_id {A} (P : A → bool) (l : list A) :
  (∀ x, x ∈ l → P x = true) → List.filter P l = l.
Proof.
  induction l as [|x l IH]; intros H; cbn; [reflexivity|].
  rewrite (H x) by apply list_elem_of_here.
  f_equal. apply IH. intros y Hy. apply H. now apply list_elem_of_further.
Qed.

(** X12.  Deletion completes in two runs when the store is well formed,
    the calls reach it, and a delete that goes through takes the object out
    of the store: the first run of [ReconcileDelete] on a subject with
    dependents returns the requeue with the finalizers untouched and leaves
    no dependent in the store; the run that follows returns success and
    removes the cluster finalizer, keeping the others. *)
Theorem X12_deletion_completes_in_two_runs :
  ∀ r,
    wellFormed (K8sClient r) →
    observable r ≠ [] →
    letsThrough (S (S (length (observable r)))) (client.faults (K8sClient r)) →
    let '(res1, r1) := ReconcileDelete r in
    let '(res2, r2) := ReconcileDelete r1 in
    res1 = Requeue "Child FailureDomains still present, requeueing."
    ∧ finalizersOf r1 = finalizersOf r
    ∧ observable r1 = []
    ∧ res2 = Continue
    ∧ (infrav1.ClusterFinalizer ∉ finalizersOf r2)
    ∧ (∀ f, f ≠ infrav1.ClusterFinalizer →
            (f ∈ finalizersOf r2 ↔ f ∈ finalizersOf r)).
Proof.
  intros r Hwf Hne Hf.
  apply letsThrough_S in Hf as [Hhd Htl].
  apply letsThrough_last in Htl as [Htl Hnext].
  pose proof (ReconcileDelete_eq r) as E. cbv zeta in E.
  fold (observable r) in E. rewrite Hhd in E.
  destruct (observable_keys r Hwf) as [Hnd Hin].
  destruct (observable r) as [|fd l] eqn:Hobs; [now contradiction Hne|].
  set (r0 := setItems _ _) in E.
  destruct (deleteEach_through (fd :: l) r0) as (c' & D & _ & Hfl & Hobj);
    [exact Htl | exact Hnd | exact Hin |].
  rewrite D in E. rewrite E.
  set (r1 := setK8sClient c' r0).
  assert (Hmeta : subjectMeta r1 = subjectMeta r) by reflexivity.
  assert (Hobs1 : observable r1 = []).
  { unfold observable. rewrite Hmeta.
    change (K8sClient r1) with c'.
    destruct (List.filter _ (client.objects c')) as [|x xs] eqn:Hx;
      [reflexivity|]. exfalso.
    assert (Hxin : x ∈ List.filter
              (client.ownedBy (metav1.Namespace (subjectMeta r))
                 (metav1.Name (subjectMeta r))) (client.objects c'))
      by (rewrite Hx; apply list_elem_of_here).
    apply elem_of_List_filter in Hxin as [Hxo Hown].
    apply Hobj in Hxo as [Hxo Hk]. apply Hk.
    apply list_elem_of_fmap. exists x. split; [reflexivity|].
    rewrite <- Hobs. apply elem_of_List_filter. now split. }
  pose proof (ReconcileDelete_eq r1) as E1. cbv zeta in E1.
  fold (observable r1) in E1. rewrite Hobs1 in E1.
  change (K8sClient r1) with c' in E1. rewrite Hfl in E1.
  change (client.faults (K8sClient r0))
    with (tail (client.faults (K8sClient r))) in E1.
  rewrite Hnext in E1. rewrite E1.
  split; [reflexivity|]. split; [reflexivity|]. split; [exact Hobs1|].
  split; [reflexivity|]. unfold finalizersOf. cbn [subjectMeta
    ReconciliationSubject setSubjectMeta setSubject
    infrav1.CloudStackCluster.ObjectMeta].
  split; [apply RemoveFinalizer_not_elem|].
  intros f Hfne. rewrite elems_RemoveFinalizer, elem_of_List_filter.
  rewrite negb_true_iff, String.eqb_neq. change (subjectMeta r1) with (subjectMeta r).
  unfold subjectMeta. tauto.
Qed.

(** X14.  Marking ready and then deleting a cluster without dependents
    gives the finalizers back: after [SetReady] and a run of
    [ReconcileDelete] whose fetch reaches the store and finds nothing, the
    run succeeds and the finalizers are those from before [SetReady]
    without the cluster finalizer, in their order; when the cluster
    finalizer was not among them they are exactly as before. *)
Theorem X14_SetReady_then_delete_restores_finalizers :
  ∀ r,
    observable r = [] →
    firstCallThrough r →
    let '(res, r2) := ReconcileDelete (SetReady r).2 in
    res = Continue
    ∧ finalizersOf r2
      = List.filter (λ e, negb (String.eqb e infrav1.ClusterFinalizer))
          (finalizersOf r)
    ∧ (infrav1.ClusterFinalizer ∉ finalizersOf r →
       finalizersOf r2 = finalizersOf r).
Proof.
  intros r Hobs Hcall.
  pose proof (ReconcileDelete_eq (SetReady r).2) as E. cbv zeta in E.
  assert (Hobs' : List.filter
            (client.ownedBy (metav1.Namespace (subjectMeta (SetReady r).2))
               (metav1.Name (subjectMeta (SetReady r).2)))
            (client.objects (K8sClient (SetReady r).2)) = []).
  { rewrite <- Hobs. unfold observable, SetReady. cbn.
    unfold controllerutil.AddFinalizer. now destruct (existsb _ _). }
  rewrite Hobs' in E.
  change (K8sClient (SetReady r).2) with (K8sClient r) in E.
  unfold firstCallThrough in Hcall. rewrite Hcall in E. rewrite E.
  assert (Hfin : finalizersOf
            (setSubjectMeta
               (controllerutil.RemoveFinalizer infrav1.ClusterFinalizer
                  (subjectMeta (SetReady r).2))
               (setItems []
                  (setK8sClient
                     (client.mk (client.objects (K8sClient r))
                        (tail (client.faults (K8sClient r)))
                        (client.requests (K8sClient r)
                         ++ [client.ListReq
                               (metav1.Namespace (subjectMeta (SetReady r).2))
                               (metav1.Name (subjectMeta (SetReady r).2))]))
                     (logInfo "Deleting CloudStackCluster." (SetReady r).2))))
          = List.filter (λ e, negb (String.eqb e infrav1.ClusterFinalizer))
              (finalizersOf r)).
  { unfold finalizersOf at 1. cbn [subjectMeta ReconciliationSubject
      setSubjectMeta setSubject infrav1.CloudStackCluster.ObjectMeta].
    rewrite elems_RemoveFinalizer.
    change (subjectMeta (SetReady r).2)
      with (controllerutil.AddFinalizer infrav1.ClusterFinalizer (subjectMeta r)).
    rewrite AddFinalizer_elems. fold (finalizersOf r).
    case_decide; [reflexivity|].
    rewrite List.filter_app. cbn [List.filter]. rewrite String.eqb_refl.
    cbn [negb]. apply app_nil_r. }
  split; [reflexivity|]. split; [exact Hfin|].
  intros Hnot. rewrite Hfin. apply List_filter_id.
  intros x Hx. apply negb_true_iff, String.eqb_neq. intros ->. contradiction.
Qed.

End Sequences.

(** * Further concrete runs *)

Section FurtherRuns.

Import Examples MoreExamples.

(** Why the objects that carry a declared name have to belong to the
    subject: with "pool1-demo" held by another cluster the create is a
    no-op, the fetch returns the undeclared "old-demo" alone, and the counts
    agree. *)
Lemma foreign_name_run :
  let r := exForeignName in
  let '(res, r') := Reconcile r in
  NoDup (declaredNames r)
  ∧ res = Continue
  ∧ fetchedNames r' = ["old-demo"]
  ∧ declaredNames r = ["pool1-demo"].
Proof.
  cbv zeta. destruct (Reconcile exForeignName) as [res r'] eqn:E.
  vm_compute in E. injection E as <- <-.
  change (declaredNames exForeignName) with ["pool1-demo"].
  split; [apply NoDup_singleton|]. repeat split.
Qed.

Lemma X2_witness :
  statusMap (SetFailureDomainsStatusMap exTwoPools).2
  = statusMap (SetFailureDomainsStatusMap exTwoPoolsShuffled).2.
Proof.
  apply X2_status_map_of_name_set. intros k.
  assert (H1 : declaredNames exTwoPools = ["pool1-demo"; "pool2-demo"])
    by (vm_compute; reflexivity).
  assert (H2 : declaredNames exTwoPoolsShuffled
               = ["pool2-demo"; "pool1-demo"; "pool2-demo"])
    by (vm_compute; reflexivity).
  rewrite H1, H2, !elem_of_cons, !elem_of_nil. tauto.
Defined.

Lemma X3_witness :
  ∃ p, "pool1-demo" = p +:+ clusterSuffix (capiClusterName exTwoPools).
Proof.
  apply (X3_status_map_keys_suffixed exTwoPools
           (insertAll (capiClusterName exTwoPools)
              (elems (specFailureDomains exTwoPools)) ∅)
           "pool1-demo" controlPlaneEntry).
  - apply statusMap_SetFailureDomainsStatusMap.
  - vm_compute. reflexivity.
Defined.

Lemma X4_witness :
  (size (insertAll (capiClusterName exTwoPoolsShuffled)
           (elems (specFailureDomains exTwoPoolsShuffled)) ∅) ≤ 3)%nat
  ∧ size (insertAll (capiClusterName exTwoPools)
            (elems (specFailureDomains exTwoPools)) ∅) = 2%nat.
Proof.
  split.
  - apply (X4_status_map_size exTwoPoolsShuffled).
    apply statusMap_SetFailureDomainsStatusMap.
  - apply (X4_status_map_size exTwoPools).
    + apply statusMap_SetFailureDomainsStatusMap.
    + assert (H : declaredNames exTwoPools = ["pool1-demo"; "pool2-demo"])
        by (vm_compute; reflexivity).
      rewrite H. apply NoDup_cons. split; [|apply NoDup_singleton].
      rewrite elem_of_cons, elem_of_nil. intros [?|[]]. discriminate.
Defined.

Lemma X7_witness :
  let '(res, r') := Reconcile exEmpty in
  res = Continue
  ∧ infrav1.CloudStackClusterStatus.Ready (subjectStatus r') = true
  ∧ statusMap r' = Some ∅
  ∧ finalizersOf r' = ["other"; infrav1.ClusterFinalizer].
Proof.
  pose proof (X7_no_failure_domains_ready_at_once exEmpty eq_refl eq_refl eq_refl)
    as H.
  destruct (Reconcile exEmpty) as [res r'] eqn:E.
  destruct H as (H1 & H2 & H3 & _).
  split; [exact H1|]. split; [exact H2|]. split; [exact H3|].
  apply (f_equal snd) in E. cbn [snd] in E. subst r'.
  vm_compute. reflexivity.
Defined.

Lemma X9_witness :
  updateFires exOld exOldDeleted = true ∧ updateFires exOld exNewStatus = false.
Proof.
  split.
  - destruct (X9_update_filter_characterised exOld exOldDeleted exOld)
      as (_ & _ & _ & _ & H & _).
    apply H. discriminate.
  - destruct (X9_update_filter_characterised exOld exNewStatus exOld)
      as (H & _).
    apply H. repeat split.
Defined.

Lemma exDeletingShared_wellFormed : wellFormed (K8sClient exDeletingShared).
Proof.
  unfold wellFormed. cbn. apply NoDup_cons. split; [|apply NoDup_singleton].
  rewrite elem_of_cons, elem_of_nil. intros [?|[]]. discriminate.
Qed.

Lemma X10_witness :
  exForeign ∈ client.objects (K8sClient (ReconcileDelete exDeletingShared).2).
Proof.
  destruct (X10_ReconcileDelete_touches_own_dependents_only exDeletingShared)
    as (_ & _ & H).
  apply H.
  - apply exDeletingShared_wellFormed.
  - apply list_elem_of_here.
  - reflexivity.
Defined.

Lemma X12_witness :
  let '(res1, r1) := ReconcileDelete (exDeleting []) in
  let '(res2, r2) := ReconcileDelete r1 in
  res1 = Requeue "Child FailureDomains still present, requeueing."
  ∧ res2 = Continue
  ∧ (infrav1.ClusterFinalizer ∉ finalizersOf r2).
Proof.
  assert (Hobs : observable (exDeleting []) ≠ []) by (vm_compute; discriminate).
  assert (Hf : letsThrough (S (S (length (observable (exDeleting [])))))
                 (client.faults (K8sClient (exDeleting []))))
    by (unfold letsThrough; cbn; constructor).
  pose proof (X12_deletion_completes_in_two_runs (exDeleting [])
                (exDeleting_wellFormed []) Hobs Hf) as H.
  destruct (ReconcileDelete (exDeleting [])) as [res1 r1].
  destruct (ReconcileDelete r1) as [res2 r2].
  destruct H as (H1 & _ & _ & H2 & H3 & _). auto.
Defined.

Lemma X14_witness :
  let '(res, r2) := ReconcileDelete (SetReady exEmpty).2 in
  res = Continue ∧ finalizersOf r2 = ["other"].
Proof.
  pose proof (X14_SetReady_then_delete_restores_finalizers exEmpty
                eq_refl eq_refl) as H.
  destruct (ReconcileDelete (SetReady exEmpty).2) as [res r2].
  destruct H as (H1 & _ & H3). split; [exact H1|].
  rewrite H3; [reflexivity|].
  unfold finalizersOf. cbn. rewrite elem_of_cons, elem_of_nil.
  intros [?|[]]. discriminate.
Defined.

End FurtherRuns.
